(** * escucha: the hold-to-dictate service of [src/escucha/app.py]

    A shallow embedding of the device resolver, the paste dispatcher and
    the [DictationService.run] loop, and the properties of the written
    specification that concern them.

    Modelling conventions.
    - A Python [str] is a [string] of bytes; [str.lower] acts on the ASCII
      letters and leaves every other byte alone.
    - The host the program runs on (environment variables, the tools found
      on the execution path, the input devices, the outcome of every
      external process and of the speech-recognition backend) is a record
      [host]; outcomes may depend on everything that happened before.
    - What the program changes is a [world]: the log of its external
      effects, oldest first, and the set of paths that exist on disk.
    - Effectful code lives in the monad [M]: it threads the [world] and
      either returns a value or raises a Python exception.
    - The [logger] calls have no effect on control flow and are left out. *)

From stdpp Require Import gmap strings list.
From Stdlib Require Import ZArith Ascii String DecimalString.

Open Scope string_scope.
Open Scope Z_scope.

(** ** Strings as the source uses them *)

Module Str.

(** [c.lower()] for one byte. *)
Definition lower_ascii (c : ascii) : ascii :=
  let n := N_of_ascii c in
  if ((65 <=? n) && (n <=? 90))%N then ascii_of_N (n + 32) else c.

(** [s.lower()]. *)
Fixpoint lower (s : string) : string :=
  match s with
  | EmptyString => EmptyString
  | String c s' => String (lower_ascii c) (lower s')
  end.

(** [s.replace(old, new)] for a one-character [old]. *)
Fixpoint replace1 (old : ascii) (new : string) (s : string) : string :=
  match s with
  | EmptyString => EmptyString
  | String c s' =>
      if Ascii.eqb c old then new +:+ replace1 old new s'
      else String c (replace1 old new s')
  end.

(** [needle in s] on strings. *)
Fixpoint contains (needle s : string) : bool :=
  String.prefix needle s ||
  match s with
  | EmptyString => false
  | String _ s' => contains needle s'
  end.

(** [s in {a, b, ...}] for a set literal of strings. *)
Definition mem (s : string) (l : list string) : bool :=
  existsb (String.eqb s) l.

(** [s.startswith(p)]. *)
Definition startswith (s p : string) : bool := String.prefix p s.

(** [str(n)] for an [int]. *)
Definition of_int (n : Z) : string := NilZero.string_of_int (Z.to_int n).

(** Truth value of a [str]: the empty string is false. *)
Definition nonempty (s : string) : bool := negb (String.eqb s "").

(** Truth value of an [Optional[str]], as in [bool(os.environ.get(k))]
    and [if which(tool)]: [None] and the empty string are false. *)
Definition truthy (o : option string) : bool :=
  match o with
  | Some s => nonempty s
  | None => false
  end.

(** The characters [str.split()] and [str.strip()] treat as white space
    (the ASCII ones: tab, line feed, vertical tab, form feed, carriage
    return, the four separators 28..31 and the space). *)
Definition is_space (c : ascii) : bool :=
  let n := N_of_ascii c in
  (((9 <=? n) && (n <=? 13)) || ((28 <=? n) && (n <=? 32)))%N.

(** [s.split()]: the maximal runs of non-space characters.  [cur] is the
    word being read, reversed. *)
Fixpoint split_ws_aux (cur : list ascii) (s : string) : list string :=
  let flush (rest : list string) :=
    match cur with
    | [] => rest
    | _ => string_of_list_ascii (rev cur) :: rest
    end in
  match s with
  | EmptyString => flush []
  | String c s' =>
      if is_space c then flush (split_ws_aux [] s')
      else split_ws_aux (c :: cur) s'
  end.

Definition split_ws (s : string) : list string := split_ws_aux [] s.

(** [sep.join(parts)]. *)
Fixpoint join (sep : string) (parts : list string) : string :=
  match parts with
  | [] => ""
  | [p] => p
  | p :: rest => p +:+ sep +:+ join sep rest
  end.

(** [s.strip()]. *)
Fixpoint lstrip (s : string) : string :=
  match s with
  | EmptyString => EmptyString
  | String c s' => if is_space c then lstrip s' else s
  end.

Definition rev_string (s : string) : string :=
  string_of_list_ascii (rev (list_ascii_of_string s)).

Definition strip (s : string) : string :=
  rev_string (lstrip (rev_string (lstrip s))).

End Str.

(** ** Exceptions and results *)

(** The exception classes the code raises or catches; all of them derive
    from [Exception].  [str(exc)] is the message. *)
Inductive exn : Type :=
  | RuntimeError (msg : string)
  | ValueError (msg : string)
  | OSError (msg : string)
  | AttributeError (msg : string).

Definition exn_str (e : exn) : string :=
  match e with
  | RuntimeError m | ValueError m | OSError m | AttributeError m => m
  end.

Inductive result (A : Type) : Type :=
  | Ok (a : A)
  | Raise (e : exn).
Arguments Ok {A} a.
Arguments Raise {A} e.

(** The error names of the specification, as the exceptions the code
    raises for them. *)
Definition NoDeviceFound : exn := RuntimeError "No input devices found".
Definition NoPasteToolAvailable : exn :=
  RuntimeError "No paste tool found (install ydotool, wtype, or xdotool)".
Definition UnknownPasteMethod (method : string) : exn :=
  ValueError ("Unknown paste method: " +:+ method).
Definition UnknownKey (key_name : string) : exn :=
  ValueError ("Unknown key name: " +:+ key_name).
Definition PasteFailed_wtype : exn :=
  RuntimeError "wtype failed to type or paste text".
Definition PasteFailed_ydotool : exn :=
  RuntimeError "ydotool failed to type text".

Definition is_PasteFailed (e : exn) : Prop :=
  e = PasteFailed_wtype \/ e = PasteFailed_ydotool.

Definition is_UnknownPasteMethod (e : exn) : Prop :=
  exists method, e = UnknownPasteMethod method.

(** ** Settings *)

Record Settings : Type := {
  key_name : string;
  keyboard_device : string;
  model : string;
  language : string;
  paste_method : string;
  paste_hotkey : string;
  clipboard_paste : string;
  ydotool_key_delay_ms : Z;
  log_file : string;
  log_level : string;
  clipboard_paste_delay_ms : Z
}.

(** ** Input devices and key events *)

(** [ecodes.EV_KEY]. *)
Definition EV_KEY : Z := 1.

(** An opened [InputDevice]: its path, its declared name and
    [capabilities()], a dict from event type to the codes it declares. *)
Record InputDevice : Type := {
  dev_path : string;
  dev_name : string;
  dev_capabilities : gmap Z (list Z)
}.

(** One event returned by [device.read()]. *)
Record InputEvent : Type := {
  ev_type : Z;
  ev_code : Z;
  ev_value : Z
}.

(** ** External effects, the host and the world *)

(** A live [subprocess.Popen] handle, identified by the position of its
    spawn in the log. *)
Definition Popen : Type := nat.

(** What the program does to the outside, in order. *)
Inductive effect : Type :=
  | Run (argv : list string) (stdin : option string)
        (env : option (gmap string string))
      (** [subprocess.run(argv, input=stdin, env=env, check=False)] *)
  | Spawn (proc : Popen) (argv : list string)
      (** [subprocess.Popen(argv)] *)
  | Poll (proc : Popen)                 (** [proc.poll()] *)
  | SendSigint (proc : Popen)           (** [proc.send_signal(SIGINT)] *)
  | Wait (proc : Popen) (timeout : Z)   (** [proc.wait(timeout=...)] *)
  | Terminate (proc : Popen)            (** [proc.terminate()] *)
  | MkTemp (name : string)              (** [NamedTemporaryFile(delete=False)] *)
  | Unlink (name : string)              (** [os.unlink(name)] *)
  | Sleep (ms : Z)                      (** [time.sleep(ms / 1000)] *)
  | Recognise (wav_path : option string) (lang : string)
      (** [model.transcribe(wav_path, language=lang)] *)
  | Status (message : string)           (** [self._status(message)] *)
  | Text (text : string)                (** [self._text(text)] *)
  | Error (message : string).           (** [self._error(message)] *)

(** The host: everything the program reads but does not decide.  The
    outcome of an external call may depend on the whole history. *)
Record host : Type := {
  environ : gmap string string;         (** [os.environ] *)
  which : string -> option string;      (** [shutil.which] *)
  getuid : Z;                           (** [os.getuid()] *)
  ecodes : gmap string Z;               (** the [KEY_*] attributes of [evdev.ecodes] *)
  list_devices : list InputDevice;      (** the devices [list_devices()] names, opened *)
  gettempdir : string;                  (** [tempfile.gettempdir()] *)
  temp_infix : list effect -> string;   (** the random part of a temporary name *)
  returncode : list effect -> list string -> option string -> Z;
                                        (** exit status of a [subprocess.run] *)
  segments : list effect -> option string -> string -> result (list string);
                                        (** the segment texts the backend yields, or its failure *)
  popen_error : list effect -> list string -> option exn;
                                        (** failure to spawn, if any *)
  has_exited : list effect -> Popen -> bool;
                                        (** [proc.poll() is not None] *)
  wait_expired : list effect -> Popen -> bool
                                        (** [proc.wait] raised [TimeoutExpired] *)
}.

(** The world: what the program has done so far and what is on disk. *)
Record world : Type := {
  log : list effect;
  files : gset string
}.

(** ** The monad of effectful code *)

Definition M (A : Type) : Type := world -> result A * world.

Definition ret {A} (a : A) : M A := fun w => (Ok a, w).

Definition raise {A} (e : exn) : M A := fun w => (Raise e, w).

Definition bind {A B} (c : M A) (k : A -> M B) : M B :=
  fun w =>
    match c w with
    | (Ok a, w') => k a w'
    | (Raise e, w') => (Raise e, w')
    end.

Declare Scope py_scope.
Delimit Scope py_scope with py.
Notation "x <- c ;; k" := (bind c (fun x => k))
  (at level 100, c at next level, right associativity) : py_scope.
Notation "c ;;; k" := (bind c (fun _ => k))
  (at level 100, right associativity) : py_scope.
Open Scope py_scope.

(** [try: body except Exception as exc: handler(exc)]. *)
Definition try_except {A} (body : M A) (handler : exn -> M A) : M A :=
  fun w =>
    match body w with
    | (Ok a, w') => (Ok a, w')
    | (Raise e, w') => handler e w'
    end.

(** [try: body finally: cleanup].  The cleanup runs on every exit; an
    exception of the cleanup replaces the outcome of the body. *)
Definition try_finally {A} (body : M A) (cleanup : M unit) : M A :=
  fun w =>
    match body w with
    | (r, w') =>
        match cleanup w' with
        | (Ok _, w'') => (r, w'')
        | (Raise e, w'') => (Raise e, w'')
        end
    end.

(** Append one effect to the log. *)
Definition emit (e : effect) : M unit :=
  fun w => (Ok tt, {| log := log w ++ [e]; files := files w |}).

(** Read the history. *)
Definition history : M (list effect) := fun w => (Ok (log w), w).

(** [os.path.exists(p)]. *)
Definition path_exists (p : string) : M bool :=
  fun w => (Ok (bool_decide (p ∈ files w)), w).

(** [os.unlink(p)]. *)
Definition unlink (p : string) : M unit :=
  fun w => (Ok tt, {| log := log w ++ [Unlink p]; files := files w ∖ {[p]} |}).

(** [for x in xs: body(x)], threading the loop variables [st]. *)
Fixpoint for_each {A S} (body : S -> A -> M S) (xs : list A) (st : S) : M S :=
  match xs with
  | [] => ret st
  | x :: xs' => st' <- body st x ;; for_each body xs' st'
  end.

Section Service.

Context (h : host).

(** [subprocess.run(argv, input=stdin, env=env, check=False).returncode]. *)
Definition run_tool (argv : list string) (stdin : option string)
    (env : option (gmap string string)) : M Z :=
  past <- history ;;
  emit (Run argv stdin env) ;;;
  ret (returncode h past argv stdin).

(** The callbacks [_status], [_text] and [_error]: the message goes to
    the observer attached to the channel. *)
Definition _status (message : string) : M unit := emit (Status message).
Definition _text (text : string) : M unit := emit (Text text).
Definition _error (message : string) : M unit := emit (Error message).

(** *** KeyCodec *)

Definition resolve_key_code (key_name : string) : result Z :=
  let key_name :=
    if negb (Str.startswith key_name "KEY_") then "KEY_" +:+ key_name
    else key_name in
  match ecodes h !! key_name with
  | None => Raise (UnknownKey key_name)
  | Some code => Ok code
  end.

(** *** DeviceResolver *)

(** [InputDevice(device_path)]: the device at that path, or [OSError]. *)
Definition open_device (device_path : string) : result InputDevice :=
  match List.find (fun d => String.eqb (dev_path d) device_path) (list_devices h) with
  | Some d => Ok d
  | None => Raise (OSError ("No such file or directory: " +:+ device_path))
  end.

(** The test that skips a pointing device. *)
Definition is_pointer (dev : InputDevice) : bool :=
  let name := Str.lower (dev_name dev) in
  Str.contains "mouse" name || Str.contains "touchpad" name.

(** [key_code in dev.capabilities().get(ecodes.EV_KEY, [])]. *)
Definition declares_key (key_code : Z) (dev : InputDevice) : bool :=
  let caps := default [] (dev_capabilities dev !! EV_KEY) in
  existsb (Z.eqb key_code) caps.

(** The [for dev in devices] loop: the device it returns, if any. *)
Fixpoint scan_devices (key_code : Z) (devices : list InputDevice)
    : option InputDevice :=
  match devices with
  | [] => None
  | dev :: rest =>
      if is_pointer dev then scan_devices key_code rest
      else if declares_key key_code dev then Some dev
      else scan_devices key_code rest
  end.

Definition pick_keyboard_device (key_code : Z) (device_path : string)
    : result InputDevice :=
  if negb (String.eqb device_path "auto") then open_device device_path
  else
    let devices := list_devices h in
    match scan_devices key_code devices with
    | Some dev => Ok dev
    | None =>
        match devices with
        | dev0 :: _ => Ok dev0
        | [] => Raise NoDeviceFound
        end
    end.

(** *** PasteDispatcher: method resolution *)

Definition known_methods : list string := ["xdotool"; "wtype"; "ydotool"].

Definition wayland : bool := Str.truthy (environ h !! "WAYLAND_DISPLAY").
Definition x11 : bool := Str.truthy (environ h !! "DISPLAY").
Definition available (tool : string) : bool := Str.truthy (which h tool).

Definition pick_paste_method (preferred : string) : result string :=
  if Str.mem preferred known_methods then Ok preferred
  else if wayland && available "ydotool" then Ok "ydotool"
  else if wayland && available "wtype" then Ok "wtype"
  else if x11 && available "xdotool" then Ok "xdotool"
  else if available "ydotool" then Ok "ydotool"
  else if available "wtype" then Ok "wtype"
  else if available "xdotool" then Ok "xdotool"
  else Raise NoPasteToolAvailable.

(** *** PasteDispatcher: hotkey resolution *)

Definition normalize_hotkey (paste_hotkey : string) : string :=
  Str.replace1 " "%char "" (Str.lower paste_hotkey).

Definition resolve_paste_hotkey (paste_hotkey : string) : string :=
  let combo := normalize_hotkey paste_hotkey in
  if negb (Str.mem combo ["auto"; ""; "ctrl+v"; "ctrl+shift+v"]) then "ctrl+v"
  else if Str.mem combo ["auto"; ""] then "ctrl+v"
  else combo.

End Service.

(** [x <- r ;; k] on plain results, for the constructor of the service. *)
Definition result_bind {A B} (r : result A) (k : A -> result B) : result B :=
  match r with
  | Ok a => k a
  | Raise e => Raise e
  end.

(** The variables of [DictationService.run]. *)
Record loop_vars : Type := {
  recording : bool;
  proc : option Popen;
  wav_path : option string
}.

(** The fields of a constructed [DictationService]. *)
Record DictationService : Type := {
  self_settings : Settings;
  self_key_code : Z;
  self_device : InputDevice;
  self_paste_method : string;
  self_model : string
}.

(** One turn of the [while] loop of [run], as the device decides it:
    [select] fails, [select] times out, [read] fails, or [read] returns
    events.  The script ends when [stop_event.is_set()] holds. *)
Inductive poll : Type :=
  | SelectError (exc : string)
  | NotReadable
  | ReadError (exc : string)
  | Readable (events : list InputEvent).

Section Dictation.

Context (h : host).

(** *** RecordingController *)

Definition arecord_cmd (name : string) : list string :=
  ["arecord"; "-q"; "-f"; "S16_LE"; "-r"; "16000"; "-c"; "1"; "-t"; "wav"; name].

(** [subprocess.Popen(cmd)]. *)
Definition popen (cmd : list string) : M Popen :=
  past <- history ;;
  match popen_error h past cmd with
  | Some e => raise e
  | None =>
      let pid := List.length past in
      emit (Spawn pid cmd) ;;; ret pid
  end.

(** [tempfile.NamedTemporaryFile(prefix=..., suffix=..., delete=False)]
    followed by [close()]: the file exists afterwards. *)
Definition named_temporary_file (pre suf : string) : M string :=
  fun w =>
    let name := gettempdir h +:+ "/" +:+ pre +:+ temp_infix h (log w) +:+ suf in
    (Ok name, {| log := log w ++ [MkTemp name]; files := {[name]} ∪ files w |}).

Definition start_recording : M (Popen * string) :=
  name <- named_temporary_file "whisper-fn-" ".wav" ;;
  p <- popen (arecord_cmd name) ;;
  ret (p, name).

Definition stop_recording (p : Popen) : M unit :=
  past <- history ;;
  emit (Poll p) ;;;
  if has_exited h past p then ret tt
  else
    emit (SendSigint p) ;;;
    past' <- history ;;
    emit (Wait p 2) ;;;
    if wait_expired h past' p then emit (Terminate p) else ret tt.

(** [stop_recording(proc)] for the loop variable, which is [None]
    before the first recording. *)
Definition stop_recording_var (p : option Popen) : M unit :=
  match p with
  | Some p => stop_recording p
  | None => raise (AttributeError "'NoneType' object has no attribute 'poll'")
  end.

(** *** TranscriptionGateway *)

Definition transcribe (wav_path : option string) (language : string) : M string :=
  past <- history ;;
  emit (Recognise wav_path language) ;;;
  match segments h past wav_path language with
  | Raise e => raise e
  | Ok segs =>
      let text := Str.strip (Str.join "" segs) in
      ret (Str.join " " (Str.split_ws text))
  end.

(** *** PasteDispatcher: per-utterance execution *)

(** The third step of the [wtype] cascade; [true] when it pasted. *)
Definition wtype_clipboard (text : string) : M bool :=
  if available h "wl-copy" then
    copy <- run_tool h ["wl-copy"] (Some text) None ;;
    if copy =? 0 then
      paste <- run_tool h ["wtype"; "-M"; "ctrl"; "-k"; "v"; "-m"; "ctrl"] None None ;;
      ret (paste =? 0)
    else ret false
  else ret false.

(** The control socket of [ydotool]: the environment handed to it. *)
Definition ydotool_env : M (gmap string string) :=
  let env := environ h in
  sock <- path_exists "/run/ydotoold.sock" ;;
  let env :=
    if bool_decide (env !! "YDOTOOL_SOCKET" = None) && sock
    then <["YDOTOOL_SOCKET" := "/run/ydotoold.sock"]> env else env in
  if bool_decide (env !! "YDOTOOL_SOCKET" = None) then
    let user_socket := "/run/user" +:+ "/" +:+ Str.of_int (getuid h) +:+ "/" +:+ ".ydotool_socket" in
    user <- path_exists user_socket ;;
    ret (if user then <["YDOTOOL_SOCKET" := user_socket]> env else env)
  else ret env.

Definition hotkey_keys (paste_hotkey : string) : list string :=
  let combo := resolve_paste_hotkey paste_hotkey in
  if String.eqb combo "ctrl+shift+v"
  then ["29:1"; "42:1"; "47:1"; "47:0"; "42:0"; "29:0"]
  else ["29:1"; "47:1"; "47:0"; "29:0"].

(** The first step of the [ydotool] cascade; [true] when it pasted. *)
Definition ydotool_clipboard (text paste_hotkey clipboard_paste : string)
    (ydotool_key_delay_ms clipboard_paste_delay_ms : Z)
    (env : gmap string string) : M bool :=
  let allow_clipboard := negb (String.eqb (Str.lower clipboard_paste) "off") in
  if allow_clipboard && available h "wl-copy" then
    copy <- run_tool h ["wl-copy"] (Some text) None ;;
    if copy =? 0 then
      (if 0 <? clipboard_paste_delay_ms then emit (Sleep clipboard_paste_delay_ms)
       else ret tt) ;;;
      let keys := hotkey_keys paste_hotkey in
      paste <- run_tool h
        (["ydotool"; "key"; "-d"; Str.of_int ydotool_key_delay_ms] ++ keys)
        None (Some env) ;;
      ret (paste =? 0)
    else ret false
  else ret false.

Definition paste_text (text method paste_hotkey clipboard_paste : string)
    (ydotool_key_delay_ms clipboard_paste_delay_ms : Z) : M unit :=
  if negb (Str.nonempty text) then ret tt
  else if String.eqb method "xdotool" then
    run_tool h ["xdotool"; "type"; "--clearmodifiers"; "--delay"; "1"; "--"; text]
      None None ;;;
    ret tt
  else if String.eqb method "wtype" then
    res <- run_tool h ["wtype"; "-d"; "1"; "--"; text] None None ;;
    if res =? 0 then ret tt
    else
      fallback <- run_tool h ["wtype"; "-"] (Some text) None ;;
      if fallback =? 0 then ret tt
      else
        pasted <- wtype_clipboard text ;;
        if pasted then ret tt else raise PasteFailed_wtype
  else if String.eqb method "ydotool" then
    env <- ydotool_env ;;
    pasted <- ydotool_clipboard text paste_hotkey clipboard_paste
                ydotool_key_delay_ms clipboard_paste_delay_ms env ;;
    if pasted then ret tt
    else
      res <- run_tool h
        ["ydotool"; "type"; "-d"; Str.of_int ydotool_key_delay_ms; "--file"; "-"]
        (Some text) (Some env) ;;
      if negb (res =? 0) then raise PasteFailed_ydotool else ret tt
  else raise (UnknownPasteMethod method).

(** *** DictationService *)

(** [DictationService.__init__]: the three resolutions, in order. *)
Definition init (settings : Settings) : result DictationService :=
  result_bind (resolve_key_code h (key_name settings)) (fun key_code =>
  result_bind (pick_keyboard_device h key_code (keyboard_device settings)) (fun device =>
  result_bind (pick_paste_method h (paste_method settings)) (fun method =>
  Ok {| self_settings := settings;
        self_key_code := key_code;
        self_device := device;
        self_paste_method := method;
        self_model := model settings |}))).

Section Run.

Context (self : DictationService).

(** The body of the [try] of a key-up: transcribe, report, paste. *)
Definition transcribe_and_paste (wav_path : option string) : M unit :=
  let s := self_settings self in
  text <- transcribe wav_path (language s) ;;
  _text text ;;;
  paste_text text (self_paste_method self) (paste_hotkey s) (clipboard_paste s)
    (ydotool_key_delay_ms s) (clipboard_paste_delay_ms s).

(** The [except Exception as exc] clause. *)
Definition report_failure (exc : exn) : M unit :=
  _error ("Transcribe/paste error: " +:+ exn_str exc).

(** [if wav_path and os.path.exists(wav_path): os.unlink(wav_path)]. *)
Definition remove_wav (wav_path : option string) : M unit :=
  match wav_path with
  | Some p =>
      if Str.nonempty p then
        there <- path_exists p ;;
        if there then unlink p else ret tt
      else ret tt
  | None => ret tt
  end.

(** The [try / except / finally] of a key-up. *)
Definition utterance_scope (wav_path : option string) : M unit :=
  try_finally
    (try_except (transcribe_and_paste wav_path) report_failure)
    (remove_wav wav_path).

(** The body of [for event in events]. *)
Definition handle_event (st : loop_vars) (event : InputEvent) : M loop_vars :=
  if negb (ev_type event =? EV_KEY) then ret st
  else if negb (ev_code event =? self_key_code self) then ret st
  else if (ev_value event =? 1) && negb (recording st) then
    session <- start_recording ;;
    _status "recording" ;;;
    ret {| recording := true; proc := Some (fst session);
           wav_path := Some (snd session) |}
  else if (ev_value event =? 0) && recording st then
    stop_recording_var (proc st) ;;;
    emit (Sleep 100) ;;;
    _status "transcribing" ;;;
    utterance_scope (wav_path st) ;;;
    let st := {| recording := false; proc := proc st; wav_path := wav_path st |} in
    _status "ready" ;;;
    ret st
  else ret st.

(** The [while not stop_event.is_set()] loop over the turns the
    device dictates; a [break] drops the rest of the script. *)
Fixpoint run_loop (script : list poll) (st : loop_vars) : M loop_vars :=
  match script with
  | [] => ret st
  | SelectError exc :: _ =>
      _error ("Input device error: " +:+ exc) ;;; ret st
  | NotReadable :: rest => run_loop rest st
  | ReadError exc :: _ =>
      _error ("Input read error: " +:+ exc) ;;; ret st
  | Readable events :: rest =>
      st' <- for_each handle_event events st ;;
      run_loop rest st'
  end.

Definition initial_vars : loop_vars :=
  {| recording := false; proc := None; wav_path := None |}.

(** The code after the loop: stop and clean up an active session. *)
Definition shutdown (st : loop_vars) : M unit :=
  match proc st with
  | Some p =>
      if recording st then stop_recording p ;;; remove_wav (wav_path st)
      else ret tt
  | None => ret tt
  end.

Definition run (script : list poll) : M unit :=
  _status "ready" ;;;
  st <- run_loop script initial_vars ;;
  shutdown st.

End Run.

End Dictation.

(** ** Reading the log *)

(** The sessions that are open after a log: spawned by [start_recording]
    and not yet handed to [stop_recording] (whose first action is the
    [poll]). *)
Definition session_step (open : list Popen) (e : effect) : list Popen :=
  match e with
  | Spawn p _ => open ++ [p]
  | Poll p => List.filter (fun q => negb (Nat.eqb q p)) open
  | _ => open
  end.

Definition open_sessions (l : list effect) : list Popen :=
  fold_left session_step l [].

(** The status the observer saw last. *)
Definition status_step (cur : option string) (e : effect) : option string :=
  match e with
  | Status message => Some message
  | _ => cur
  end.

Definition last_status (l : list effect) : option string :=
  fold_left status_step l None.

(** The external tool invocations of a log. *)
Definition is_run (e : effect) : bool :=
  match e with
  | Run _ _ _ => true
  | _ => false
  end.

Definition invocations (l : list effect) : list effect := List.filter is_run l.

(** Effects that neither open nor close a session nor change the status. *)
Definition quiet (e : effect) : Prop :=
  match e with
  | Spawn _ _ | Poll _ | Status _ => False
  | _ => True
  end.

(** [appends P c]: whatever its outcome, [c] only adds effects that
    satisfy [P] at the end of the log. *)
Definition appends {A} (P : effect -> Prop) (c : M A) : Prop :=
  forall w, exists d, log (snd (c w)) = (log w ++ d)%list /\ Forall P d.

(** An effect that removes a file. *)
Definition is_unlink (e : effect) : Prop := exists name, e = Unlink name.

(** At every point of a log at most one session is open. *)
Definition at_most_one_session (l : list effect) : Prop :=
  forall pre, pre `prefix_of` l -> (List.length (open_sessions pre) <= 1)%nat.

(** Every session of a log was started in the idle state: no session was
    open and the last status emitted was ["ready"]. *)
Definition starts_from_idle (l : list effect) : Prop :=
  forall pre p argv,
    (pre ++ [Spawn p argv])%list `prefix_of` l ->
    open_sessions pre = [] /\ last_status pre = Some "ready".

Definition disciplined (l : list effect) : Prop :=
  at_most_one_session l /\ starts_from_idle l.

(** The loop variables agree with the log. *)
Definition agrees (st : loop_vars) (l : list effect) : Prop :=
  if recording st
  then exists p, proc st = Some p /\ open_sessions l = [p]
                 /\ last_status l = Some "recording"
  else open_sessions l = [] /\ last_status l = Some "ready".

(** Whether the loop body does anything for an event. *)
Definition acts (self : DictationService) (st : loop_vars) (event : InputEvent) : bool :=
  (ev_type event =? EV_KEY) && (ev_code event =? self_key_code self) &&
  (((ev_value event =? 1) && negb (recording st)) ||
   ((ev_value event =? 0) && recording st)).

(** Auto-detection as the specification words it: drop the pointing
    devices, take the first remaining device that declares the key, else
    the first remaining device, and fail when none remains. *)
Definition pick_keyboard_device_spec (h : host) (key_code : Z) : result InputDevice :=
  let candidates := List.filter (fun dev => negb (is_pointer dev)) (list_devices h) in
  match List.find (declares_key key_code) candidates with
  | Some dev => Ok dev
  | None =>
      match candidates with
      | dev0 :: _ => Ok dev0
      | [] => Raise NoDeviceFound
      end
  end.

(** The tools probed when no known method is configured, in the order of
    the probes that apply to the session. *)
Definition probe_order (h : host) : list string :=
  (if wayland h then ["ydotool"; "wtype"] else []) ++
  (if x11 h then ["xdotool"] else []) ++
  ["ydotool"; "wtype"; "xdotool"].

(** ** Concrete hosts *)

Module Demo.

(** [ecodes.KEY_FN]. *)
Definition KEY_FN : Z := 464.

Definition mouse : InputDevice :=
  {| dev_path := "/dev/input/event0";
     dev_name := "Logitech USB Optical Mouse";
     dev_capabilities := {[ EV_KEY := [272; 273; 274] ]} |}.

Definition keyboard : InputDevice :=
  {| dev_path := "/dev/input/event3";
     dev_name := "AT Translated Set 2 keyboard";
     dev_capabilities := {[ EV_KEY := [1; 2; 3; 28; 29; 42; 47; 57] ]} |}.

Definition fn_keyboard : InputDevice :=
  {| dev_path := "/dev/input/event4";
     dev_name := "ThinkPad Extra Buttons";
     dev_capabilities := {[ EV_KEY := [113; 114; 115; 464] ]} |}.

(** A host whose tools on the path are [tools], whose external
    processes exit with [rc argv] and whose backend yields [segs]. *)
Definition make (env : gmap string string) (tools : list string)
    (devices : list InputDevice) (rc : list string -> Z)
    (segs : result (list string)) : host :=
  {| environ := env;
     which := fun t => if Str.mem t tools then Some ("/usr/bin/" +:+ t) else None;
     getuid := 1000;
     ecodes := {[ "KEY_FN" := KEY_FN ]};
     list_devices := devices;
     gettempdir := "/tmp";
     temp_infix := fun past => "u" +:+ Str.of_int (Z.of_nat (List.length past));
     returncode := fun _ argv _ => rc argv;
     segments := fun _ _ _ => segs;
     popen_error := fun _ _ => None;
     has_exited := fun _ _ => false;
     wait_expired := fun _ _ => false |}.

Definition wayland_env : gmap string string := {[ "WAYLAND_DISPLAY" := "wayland-0" ]}.
Definition x11_env : gmap string string := {[ "DISPLAY" := ":0" ]}.

Definition always (code : Z) : list string -> Z := fun _ => code.

Definition settings : Settings :=
  {| key_name := "KEY_FN"; keyboard_device := "auto"; model := "base.en";
     language := "en"; paste_method := "auto"; paste_hotkey := "auto";
     clipboard_paste := "auto"; ydotool_key_delay_ms := 1; log_file := "";
     log_level := "info"; clipboard_paste_delay_ms := 75 |}.

Definition service (method : string) : DictationService :=
  {| self_settings := settings; self_key_code := KEY_FN;
     self_device := fn_keyboard; self_paste_method := method;
     self_model := "base.en" |}.

Definition key (value : Z) : InputEvent :=
  {| ev_type := EV_KEY; ev_code := KEY_FN; ev_value := value |}.

Definition empty_world : world := {| log := []; files := ∅ |}.

End Demo.

(** A world and loop variables in the middle of a recording, and what a
    key-up does to them: the outcome, the effects after the settle delay
    and the status, and the files left on disk. *)
Definition recording_world : world :=
  {| log := [Status "ready"; MkTemp "/tmp/whisper-fn-u1.wav";
             Spawn 2%nat (arecord_cmd "/tmp/whisper-fn-u1.wav");
             Status "recording"];
     files := {[ "/tmp/whisper-fn-u1.wav" ]} |}.

Definition recording_vars : loop_vars :=
  {| recording := true; proc := Some 2%nat;
     wav_path := Some "/tmp/whisper-fn-u1.wav" |}.

Definition outcome (h : host) (method : string) : result loop_vars * list effect * list string :=
  let r := handle_event h (Demo.service method) recording_vars (Demo.key 0)
             recording_world in
  (fst r, drop 9 (log (snd r)), elements (files (snd r))).

(** ** The key test of the troubleshooting window ([src/escucha/gui.py]) *)

(** [s.split(" ", 1)[0]]: what stands before the first space. *)
Fixpoint before_space (s : string) : string :=
  match s with
  | EmptyString => EmptyString
  | String c s' => if Ascii.eqb c " "%char then EmptyString
                   else String c (before_space s')
  end.

(** [ecodes.EV_KEY in dev.capabilities()]. *)
Definition has_ev_key (dev : InputDevice) : bool :=
  bool_decide (is_Some (dev_capabilities dev !! EV_KEY)).

(** The loop of [list_key_devices]: path and name of every device that is
    no pointer and has key capabilities. *)
Fixpoint key_devices (devices : list InputDevice) : list (string * string) :=
  match devices with
  | [] => []
  | dev :: rest =>
      if is_pointer dev then key_devices rest
      else if has_ev_key dev then (dev_path dev, dev_name dev) :: key_devices rest
      else key_devices rest
  end.

Definition list_key_devices (h : host) : list (string * string) :=
  key_devices (list_devices h).

(** The entry of the device box for a device: [f"{path} - {name}"]. *)
Definition choice_of (item : string * string) : string :=
  fst item +:+ " - " +:+ snd item.

(** The values of the device box: ["auto"], then one entry per device. *)
Definition device_choices (h : host) : list string :=
  "auto" :: List.map choice_of (list_key_devices h).

(** [pick_key_device_path], with [selection] the value of the device box. *)
Definition pick_key_device_path (h : host) (settings : Settings)
    (selection : string) : result string :=
  if Str.nonempty selection && negb (String.eqb selection "auto")
  then Ok (before_space selection)
  else if negb (String.eqb (keyboard_device settings) "auto")
  then Ok (keyboard_device settings)
  else
    match list_key_devices h with
    | item :: _ => Ok (fst item)
    | [] => Raise (RuntimeError "No keyboard device found for key test")
    end.

(** ** More ways to read a log and a script *)

(** The temporary files a log created. *)
Definition temp_names (l : list effect) : list string :=
  flat_map (fun e => match e with MkTemp name => [name] | _ => [] end) l.

(** The status that follows a status in the cycle of the service. *)
Definition next_status (s : string) : string :=
  if String.eqb s "ready" then "recording"
  else if String.eqb s "recording" then "transcribing"
  else "ready".

(** Every status of a log is the one the cycle prescribes after the
    status before it; the first one is ["ready"]. *)
Definition status_cycle (l : list effect) : Prop :=
  forall pre message,
    (pre ++ [Status message])%list `prefix_of` l ->
    message = match last_status pre with
              | None => "ready"
              | Some s => next_status s
              end.


(** Effects that neither open nor close a session, nor change the
    status, nor create a file. *)
Definition silent (e : effect) : Prop :=
  match e with
  | Spawn _ _ | Poll _ | Status _ | MkTemp _ => False
  | _ => True
  end.

(** [keeps_files c]: whatever its outcome, [c] leaves the disk alone. *)
Definition keeps_files {A} (c : M A) : Prop :=
  forall w, files (snd (c w)) = files w.

(** The events the loop body can act on: a press or a release of the
    configured key. *)
Definition relevant (self : DictationService) (event : InputEvent) : bool :=
  (ev_type event =? EV_KEY) && (ev_code event =? self_key_code self) &&
  ((ev_value event =? 1) || (ev_value event =? 0)).

(** A script without the turns and the events that cannot matter. *)
Fixpoint prune (self : DictationService) (script : list poll) : list poll :=
  match script with
  | [] => []
  | NotReadable :: rest => prune self rest
  | Readable events :: rest =>
      Readable (List.filter (relevant self) events) :: prune self rest
  | turn :: rest => turn :: prune self rest
  end.



(** A string has no space character. *)
Fixpoint no_space (s : string) : bool :=
  match s with
  | EmptyString => true
  | String c s' => negb (Ascii.eqb c " "%char) && no_space s'
  end.

(** What one effect of the [ydotool] cascade may be: the clipboard
    helper without an environment, [ydotool] with [env], or a pause. *)
Definition ydotool_step (env : gmap string string) (e : effect) : Prop :=
  match e with
  | Run (tool :: _) _ given =>
      (tool = "wl-copy" /\ given = None) \/ (tool = "ydotool" /\ given = Some env)
  | Sleep _ => True
  | _ => False
  end.


(** The file a key-up removes, as a set. *)
Definition wav_set (wav : option string) : gset string :=
  match wav with
  | Some p => if Str.nonempty p then {[p]} else ∅
  | None => ∅
  end.

(** An effect that is no status. *)
Definition not_status (e : effect) : Prop :=
  match e with
  | Status _ => False
  | _ => True
  end.

(** The temporary files of the log are accounted for: their names are
    not empty, and one that is on disk is the file of the recording in
    progress. *)
Definition temps_ok (st : loop_vars) (w : world) : Prop :=
  Forall (fun n => Str.nonempty n = true) (temp_names (log w))
  /\ forall n, In n (temp_names (log w)) -> n ∈ files w ->
               recording st = true /\ wav_path st = Some n.

(** What the loop keeps between two events. *)
Definition sound (st : loop_vars) (w : world) : Prop :=
  disciplined (log w) /\ agrees st (log w)
  /\ status_cycle (log w) /\ temps_ok st w.

(** What is left of it when an exception leaves the loop. *)
Definition sound_raise (w : world) : Prop :=
  disciplined (log w) /\ status_cycle (log w).


(** * Properties *)

Open Scope list_scope.

(** ** Hotkey resolution *)

Lemma mem_cons (s a : string) (l : list string) :
  Str.mem s (a :: l) = String.eqb s a || Str.mem s l.
Proof. reflexivity. Qed.

(** C8: the resolved hotkey is the shift variant exactly when the
    normalised input (lower-cased, spaces removed) is ["ctrl+shift+v"],
    and ["ctrl+v"] for every other input, among them ["auto"], the empty
    string and ["CTRL+V"]. *)
Theorem C8_resolve_paste_hotkey :
  forall paste_hotkey : string,
    resolve_paste_hotkey paste_hotkey =
      (if String.eqb (normalize_hotkey paste_hotkey) "ctrl+shift+v"
       then "ctrl+shift+v" else "ctrl+v")
    /\ (resolve_paste_hotkey paste_hotkey = "ctrl+shift+v"
        <-> normalize_hotkey paste_hotkey = "ctrl+shift+v")
    /\ (resolve_paste_hotkey paste_hotkey = "ctrl+v"
        <-> normalize_hotkey paste_hotkey <> "ctrl+shift+v")
    /\ resolve_paste_hotkey "auto" = "ctrl+v"
    /\ resolve_paste_hotkey "Auto" = "ctrl+v"
    /\ resolve_paste_hotkey "" = "ctrl+v"
    /\ resolve_paste_hotkey "CTRL+V" = "ctrl+v"
    /\ resolve_paste_hotkey "super+v" = "ctrl+v"
    /\ resolve_paste_hotkey " Ctrl + Shift + V " = "ctrl+shift+v".
Proof.
  intros paste_hotkey.
  assert (Heq : resolve_paste_hotkey paste_hotkey =
      (if String.eqb (normalize_hotkey paste_hotkey) "ctrl+shift+v"
       then "ctrl+shift+v" else "ctrl+v")).
  { unfold resolve_paste_hotkey.
    set (combo := normalize_hotkey paste_hotkey).
    rewrite !mem_cons. cbn [Str.mem existsb].
    destruct (String.eqb_spec combo "auto") as [-> | _]; [reflexivity |].
    destruct (String.eqb_spec combo "") as [-> | _]; [reflexivity |].
    destruct (String.eqb_spec combo "ctrl+v") as [-> | _]; [reflexivity |].
    destruct (String.eqb_spec combo "ctrl+shift+v") as [-> | _]; reflexivity. }
  split; [exact Heq |].
  rewrite Heq.
  destruct (String.eqb_spec (normalize_hotkey paste_hotkey) "ctrl+shift+v")
    as [Hn | Hn].
  - repeat split; try reflexivity; try (intros; assumption);
      try discriminate; try (intros Hc; now elim Hc).
  - repeat split; try reflexivity; try (intros; assumption);
      try discriminate; try (intros Hc; now elim Hn).
Qed.

(** ** Method resolution *)

Lemma pick_paste_method_probe (h : host) (preferred : string) :
  Str.mem preferred known_methods = false ->
  pick_paste_method h preferred =
    match List.find (available h) (probe_order h) with
    | Some tool => Ok tool
    | None => Raise NoPasteToolAvailable
    end.
Proof.
  intros Hp. unfold pick_paste_method, probe_order. rewrite Hp.
  destruct (wayland h), (x11 h); cbn [andb app List.find];
    destruct (available h "ydotool"), (available h "wtype"),
      (available h "xdotool"); reflexivity.
Qed.

(** C7: with no known method configured, resolution selects [ydotool] on
    Wayland when it is available, else [wtype] on Wayland when it is
    available, else [xdotool] on X11 when it is available, else the first
    available of [ydotool], [wtype], [xdotool]; it fails, with
    [NoPasteToolAvailable], only when none of the three is available.
    A session marker is present when the variable is set to a non-empty
    value. *)
Theorem C7_pick_paste_method_auto :
  forall (h : host) (preferred : string),
    Str.mem preferred known_methods = false ->
    let picked := pick_paste_method h preferred in
    let first_available :=
      match List.find (available h) ["ydotool"; "wtype"; "xdotool"] with
      | Some tool => Ok tool
      | None => Raise NoPasteToolAvailable
      end in
    (wayland h = true -> available h "ydotool" = true -> picked = Ok "ydotool")
    /\ (wayland h = true -> available h "ydotool" = false ->
        available h "wtype" = true -> picked = Ok "wtype")
    /\ ((wayland h && available h "ydotool") = false ->
        (wayland h && available h "wtype") = false ->
        x11 h = true -> available h "xdotool" = true -> picked = Ok "xdotool")
    /\ ((wayland h && available h "ydotool") = false ->
        (wayland h && available h "wtype") = false ->
        (x11 h && available h "xdotool") = false ->
        picked = first_available)
    /\ picked = match List.find (available h) (probe_order h) with
                | Some tool => Ok tool
                | None => Raise NoPasteToolAvailable
                end
    /\ ((exists e, picked = Raise e) <->
        available h "ydotool" = false /\ available h "wtype" = false /\
        available h "xdotool" = false)
    /\ (forall e, picked = Raise e -> e = NoPasteToolAvailable).
Proof.
  intros h preferred Hp picked first_available.
  assert (Hprobe := pick_paste_method_probe h preferred Hp).
  fold picked in Hprobe.
  assert (Hcode : picked =
    if wayland h && available h "ydotool" then Ok "ydotool"
    else if wayland h && available h "wtype" then Ok "wtype"
    else if x11 h && available h "xdotool" then Ok "xdotool"
    else if available h "ydotool" then Ok "ydotool"
    else if available h "wtype" then Ok "wtype"
    else if available h "xdotool" then Ok "xdotool"
    else Raise NoPasteToolAvailable).
  { unfold picked, pick_paste_method. now rewrite Hp. }
  clearbody picked.
  split; [intros Hw Hy; now rewrite Hcode, Hw, Hy |].
  split; [intros Hw Hy Ht; now rewrite Hcode, Hw, Hy, Ht |].
  split; [intros Hy Ht Hx Hd; now rewrite Hcode, Hy, Ht, Hx, Hd |].
  split.
  { intros Hy Ht Hx. rewrite Hcode, Hy, Ht, Hx.
    unfold first_available. cbn [List.find].
    destruct (available h "ydotool"), (available h "wtype"),
      (available h "xdotool"); reflexivity. }
  split; [exact Hprobe |].
  split.
  - split.
    + intros [e He]. rewrite Hcode in He.
      destruct (wayland h), (x11 h), (available h "ydotool"),
        (available h "wtype"), (available h "xdotool");
        cbn in He; try discriminate He; auto.
    + intros (Hy & Ht & Hd). rewrite Hcode, Hy, Ht, Hd, !andb_false_r. eauto.
  - intros e He. rewrite Hcode in He.
    destruct (wayland h), (x11 h), (available h "ydotool"),
      (available h "wtype"), (available h "xdotool");
      cbn in He; congruence.
Qed.

Lemma C7_witness :
  Str.mem "auto" known_methods = false
  /\ pick_paste_method
       (Demo.make Demo.wayland_env ["ydotool"; "wtype"; "xdotool"] []
          (Demo.always 0) (Ok []))
       "auto" = Ok "ydotool".
Proof.
  split; [reflexivity |].
  refine (proj1 (C7_pick_paste_method_auto
    (Demo.make Demo.wayland_env ["ydotool"; "wtype"; "xdotool"] []
       (Demo.always 0) (Ok [])) "auto" _) _ _); reflexivity.
Defined.

Lemma pick_paste_method_known (h : host) (preferred : string) :
  match pick_paste_method h preferred with
  | Ok method => Str.mem method known_methods = true
  | Raise e => e = NoPasteToolAvailable
  end.
Proof.
  unfold pick_paste_method.
  destruct (Str.mem preferred known_methods) eqn:Hp; [exact Hp |].
  repeat match goal with
         | |- context [if ?b then _ else _] => destruct b
         end; reflexivity.
Qed.

Lemma init_paste_method_known (h : host) (settings : Settings)
    (self : DictationService) :
  init h settings = Ok self ->
  Str.mem (self_paste_method self) known_methods = true.
Proof.
  unfold init, result_bind. intros Hinit.
  destruct (resolve_key_code h (key_name settings)); [| discriminate].
  destruct (pick_keyboard_device h a (keyboard_device settings)); [| discriminate].
  pose proof (pick_paste_method_known h (paste_method settings)) as Hk.
  destruct (pick_paste_method h (paste_method settings)); [| discriminate].
  injection Hinit as <-. exact Hk.
Qed.

(** [paste_text] raises the unknown-method error only for a method that
    is none of the three tools. *)
Lemma paste_text_unknown_only (h : host)
    (text method paste_hotkey clipboard_paste : string)
    (key_delay clip_delay : Z) (w : world) (m : string) :
  fst (paste_text h text method paste_hotkey clipboard_paste key_delay clip_delay w)
    = Raise (UnknownPasteMethod m) ->
  Str.mem method known_methods = false.
Proof.
  unfold paste_text, known_methods. rewrite !mem_cons. cbn [Str.mem existsb].
  destruct (negb (Str.nonempty text)); [discriminate |].
  destruct (String.eqb method "xdotool"); [discriminate |].
  destruct (String.eqb method "wtype").
  - unfold bind, run_tool, wtype_clipboard, bind, history, emit, ret, raise.
    cbn.
    repeat match goal with
           | |- context [if ?b then _ else _] => destruct b; cbn
           end; discriminate.
  - destruct (String.eqb method "ydotool"); [| reflexivity].
    unfold bind, ydotool_env, ydotool_clipboard, run_tool, bind, history,
      path_exists, emit, ret, raise.
    cbn.
    repeat match goal with
           | |- context [if ?b then _ else _] => destruct b; cbn
           end; discriminate.
Qed.

(** C2, as the code has it: a configured string that is none of the known
    tool identifiers never makes method resolution raise
    [UnknownPasteMethod]; it is resolved like ["auto"], to a known
    identifier found by probing or to the failure [NoPasteToolAvailable].
    The unknown-method check is in per-utterance execution, and a
    constructed service never meets it, since its resolved method is a
    known identifier. *)
Theorem C2_unknown_method_resolves_by_probing :
  forall (h : host) (preferred : string),
    Str.mem preferred known_methods = false ->
    (forall m, pick_paste_method h preferred <> Raise (UnknownPasteMethod m))
    /\ pick_paste_method h preferred = pick_paste_method h "auto"
    /\ (pick_paste_method h preferred = Raise NoPasteToolAvailable
        \/ exists method, pick_paste_method h preferred = Ok method
                          /\ Str.mem method known_methods = true)
    /\ (forall settings self, init h settings = Ok self ->
        forall text w m,
          fst (paste_text h text (self_paste_method self)
                 (paste_hotkey (self_settings self))
                 (clipboard_paste (self_settings self))
                 (ydotool_key_delay_ms (self_settings self))
                 (clipboard_paste_delay_ms (self_settings self)) w)
          <> Raise (UnknownPasteMethod m)).
Proof.
  intros h preferred Hp.
  pose proof (pick_paste_method_known h preferred) as Hk.
  split; [| split; [| split]].
  - intros m Hm. rewrite Hm in Hk. discriminate Hk.
  - rewrite (pick_paste_method_probe h preferred Hp).
    now rewrite (pick_paste_method_probe h "auto").
  - destruct (pick_paste_method h preferred) as [method | e].
    + right. eauto.
    + left. now subst.
  - intros settings self Hinit text w m Hraise.
    apply paste_text_unknown_only in Hraise.
    rewrite (init_paste_method_known h settings self Hinit) in Hraise.
    discriminate Hraise.
Qed.

Lemma C2_witness :
  Str.mem "clipboard" known_methods = false
  /\ pick_paste_method
       (Demo.make Demo.x11_env ["xdotool"] [] (Demo.always 0) (Ok []))
       "clipboard"
     = pick_paste_method
       (Demo.make Demo.x11_env ["xdotool"] [] (Demo.always 0) (Ok []))
       "auto".
Proof.
  split; [reflexivity |].
  exact (proj1 (proj2 (C2_unknown_method_resolves_by_probing
    (Demo.make Demo.x11_env ["xdotool"] [] (Demo.always 0) (Ok []))
    "clipboard" eq_refl))).
Defined.

(** C2 as the specification states it fails: the unknown strings
    ["clipboard"] and ["auto"] resolve to a tool instead of raising, and
    [paste_text] itself raises the unknown-method error when it is handed
    such a string. *)
Lemma C2_counterexample :
  let h := Demo.make Demo.wayland_env ["ydotool"; "wl-copy"] []
             (Demo.always 0) (Ok []) in
  Str.mem "clipboard" known_methods = false
  /\ pick_paste_method h "clipboard" = Ok "ydotool"
  /\ pick_paste_method h "auto" = Ok "ydotool"
  /\ ~ (exists e, is_UnknownPasteMethod e /\
                  pick_paste_method h "clipboard" = Raise e)
  /\ fst (paste_text h "hello" "clipboard" "auto" "auto" 1 75 Demo.empty_world)
     = Raise (UnknownPasteMethod "clipboard").
Proof.
  cbv zeta.
  split; [reflexivity |].
  split; [reflexivity |].
  split; [reflexivity |].
  split; [| reflexivity].
  intros (e & _ & He). discriminate He.
Qed.

(** ** Per-utterance execution *)

(** C9: with the empty string as text, [paste_text] returns at once for
    every method and configuration: no error is raised and the world,
    hence the list of external invocations, is unchanged. *)
Theorem C9_paste_text_empty_is_noop :
  forall (h : host) (method paste_hotkey clipboard_paste : string)
         (key_delay clip_delay : Z) (w : world),
    paste_text h "" method paste_hotkey clipboard_paste key_delay clip_delay w
      = (Ok tt, w)
    /\ invocations
         (log (snd (paste_text h "" method paste_hotkey clipboard_paste
                      key_delay clip_delay w)))
       = invocations (log w).
Proof.
  intros. split; reflexivity.
Qed.

(** What [paste_text] does for [xdotool] and a non-empty text: one
    invocation, whose exit status is not looked at. *)
Lemma paste_text_xdotool (h : host) (text paste_hotkey clipboard_paste : string)
    (key_delay clip_delay : Z) (w : world) :
  Str.nonempty text = true ->
  paste_text h text "xdotool" paste_hotkey clipboard_paste key_delay clip_delay w
    = (Ok tt,
       {| log := log w ++
            [Run ["xdotool"; "type"; "--clearmodifiers"; "--delay"; "1"; "--"; text]
               None None];
          files := files w |}).
Proof.
  intros Hne. unfold paste_text. rewrite Hne. reflexivity.
Qed.

(** C3, on the code: for [xdotool] the single invocation types the text
    with the modifiers cleared and nothing follows it, but when it exits
    with status 1 [paste_text] still returns normally; the sibling
    methods raise in that situation. *)
Theorem C3_xdotool_failure_is_not_raised :
  let h := Demo.make Demo.x11_env ["xdotool"] [Demo.keyboard]
             (Demo.always 1) (Ok ["hello"]) in
  let argv := ["xdotool"; "type"; "--clearmodifiers"; "--delay"; "1"; "--"; "hello"] in
  returncode h [] argv None = 1
  /\ paste_text h "hello" "xdotool" "auto" "auto" 1 75 Demo.empty_world
     = (Ok tt, {| log := [Run argv None None]; files := ∅ |})
  /\ (exists e, is_PasteFailed e /\
        fst (paste_text h "hello" "wtype" "auto" "auto" 1 75 Demo.empty_world)
        = Raise e)
  /\ (exists e, is_PasteFailed e /\
        fst (paste_text h "hello" "ydotool" "auto" "auto" 1 75 Demo.empty_world)
        = Raise e).
Proof.
  cbv zeta. split; [reflexivity |]. split; [reflexivity |]. split.
  - exists PasteFailed_wtype. split; [now left | reflexivity].
  - exists PasteFailed_ydotool. split; [now right | reflexivity].
Qed.

(** ** Device resolution *)

Lemma scan_devices_find (key_code : Z) (devices : list InputDevice) :
  scan_devices key_code devices =
  List.find (fun dev => negb (is_pointer dev) && declares_key key_code dev) devices.
Proof.
  induction devices as [| dev rest IH]; [reflexivity |].
  cbn [scan_devices List.find].
  destruct (is_pointer dev); cbn [negb andb]; [exact IH |].
  destruct (declares_key key_code dev); [reflexivity | exact IH].
Qed.

(** Auto-detection as the code does it: the first device that is no
    pointer and declares the key; failing that, the first device of the
    whole enumeration. *)
Lemma pick_keyboard_device_auto (h : host) (key_code : Z) :
  pick_keyboard_device h key_code "auto" =
  match List.find (fun dev => negb (is_pointer dev) && declares_key key_code dev)
          (list_devices h) with
  | Some dev => Ok dev
  | None => match list_devices h with
            | dev0 :: _ => Ok dev0
            | [] => Raise NoDeviceFound
            end
  end.
Proof.
  unfold pick_keyboard_device. cbn [String.eqb negb].
  now rewrite scan_devices_find.
Qed.

(** Where the code and the worded policy agree: when the first
    enumerated device is no pointer or nothing is enumerated, and when
    some device that is no pointer declares the key. *)
Lemma find_filter {A} (f g : A -> bool) (l : list A) :
  List.find f (List.filter g l) = List.find (fun a => g a && f a) l.
Proof.
  induction l as [| a l IH]; [reflexivity |].
  cbn [List.filter List.find]. destruct (g a); cbn [andb List.find]; [| exact IH].
  destruct (f a); [reflexivity | exact IH].
Qed.

Lemma pick_keyboard_device_agrees (h : host) (key_code : Z) :
  match list_devices h with
  | dev0 :: _ => is_pointer dev0 = false
  | [] => True
  end ->
  pick_keyboard_device h key_code "auto" = pick_keyboard_device_spec h key_code.
Proof.
  intros Hfirst. rewrite pick_keyboard_device_auto.
  unfold pick_keyboard_device_spec. rewrite find_filter.
  destruct (List.find _ (list_devices h)); [reflexivity |].
  destruct (list_devices h) as [| dev0 rest]; [reflexivity |].
  cbn [List.filter]. now rewrite Hfirst.
Qed.

Lemma pick_keyboard_device_declared (h : host) (key_code : Z) (dev : InputDevice) :
  List.find (fun d => negb (is_pointer d) && declares_key key_code d)
    (list_devices h) = Some dev ->
  pick_keyboard_device h key_code "auto" = Ok dev
  /\ pick_keyboard_device_spec h key_code = Ok dev.
Proof.
  intros Hfind. rewrite pick_keyboard_device_auto.
  unfold pick_keyboard_device_spec. rewrite find_filter.
  now rewrite Hfind.
Qed.

(** C1, on the code: with a mouse enumerated first and a keyboard that
    does not declare the key, auto-detection returns the mouse, an
    excluded device, where the worded policy returns the keyboard, the
    first device that is not excluded; with nothing but a mouse the code
    returns the mouse as well. *)
Theorem C1_fallback_returns_excluded_device :
  let h := Demo.make Demo.wayland_env ["ydotool"] [Demo.mouse; Demo.keyboard]
             (Demo.always 0) (Ok []) in
  let h1 := Demo.make Demo.wayland_env ["ydotool"] [Demo.mouse]
             (Demo.always 0) (Ok []) in
  is_pointer Demo.mouse = true
  /\ is_pointer Demo.keyboard = false
  /\ declares_key Demo.KEY_FN Demo.keyboard = false
  /\ pick_keyboard_device_spec h Demo.KEY_FN = Ok Demo.keyboard
  /\ pick_keyboard_device h Demo.KEY_FN "auto" = Ok Demo.mouse
  /\ pick_keyboard_device h1 Demo.KEY_FN "auto" = Ok Demo.mouse.
Proof.
  cbv zeta. repeat split; reflexivity.
Qed.

(** ** The service loop: events that are ignored *)

(** C10: an event of the configured key whose value is neither 0 nor 1
    (an auto-repeat, value 2) leaves the loop variables and the world as
    they are: no session is started or stopped, the recording flag and
    the status are unchanged. *)
Theorem C10_other_values_ignored :
  forall (h : host) (self : DictationService) (st : loop_vars)
         (event : InputEvent) (w : world),
    ev_type event = EV_KEY ->
    ev_code event = self_key_code self ->
    ev_value event <> 0 ->
    ev_value event <> 1 ->
    handle_event h self st event w = (Ok st, w).
Proof.
  intros h self st event w Ht Hc H0 H1.
  unfold handle_event. rewrite Ht, Hc, !Z.eqb_refl. cbn [negb].
  apply Z.eqb_neq in H0, H1. rewrite H0, H1. reflexivity.
Qed.

Lemma C10_witness :
  handle_event
    (Demo.make Demo.wayland_env ["ydotool"] [Demo.fn_keyboard] (Demo.always 0) (Ok []))
    (Demo.service "ydotool")
    {| recording := true; proc := Some 2%nat; wav_path := Some "/tmp/whisper-fn-u1.wav" |}
    (Demo.key 2) Demo.empty_world
  = (Ok {| recording := true; proc := Some 2%nat;
           wav_path := Some "/tmp/whisper-fn-u1.wav" |},
     Demo.empty_world).
Proof.
  apply C10_other_values_ignored; [reflexivity | reflexivity | simpl; lia | simpl; lia].
Defined.

(** ** How computations extend the log *)

Section Appends.

Context {A B : Type} (P : effect -> Prop).

Lemma appends_ret (a : A) : appends P (ret a).
Proof. intros w. exists []. split; [now rewrite app_nil_r | constructor]. Qed.

Lemma appends_raise (e : exn) : appends P (@raise A e).
Proof. intros w. exists []. split; [now rewrite app_nil_r | constructor]. Qed.

Lemma appends_history : appends P history.
Proof. intros w. exists []. split; [now rewrite app_nil_r | constructor]. Qed.

Lemma appends_path_exists (p : string) : appends P (path_exists p).
Proof. intros w. exists []. split; [now rewrite app_nil_r | constructor]. Qed.

Lemma appends_emit (e : effect) : P e -> appends P (emit e).
Proof. intros He w. exists [e]. split; [reflexivity | now repeat constructor]. Qed.

Lemma appends_unlink (p : string) : P (Unlink p) -> appends P (unlink p).
Proof. intros He w. exists [Unlink p]. split; [reflexivity | now repeat constructor]. Qed.

Lemma appends_bind (c : M A) (k : A -> M B) :
  appends P c -> (forall a, appends P (k a)) -> appends P (bind c k).
Proof.
  intros Hc Hk w. unfold bind.
  destruct (Hc w) as (d1 & Hd1 & HP1).
  destruct (c w) as [[a | e] w1]; cbn [snd] in *.
  - destruct (Hk a w1) as (d2 & Hd2 & HP2).
    exists (d1 ++ d2). split.
    + now rewrite Hd2, Hd1, app_assoc.
    + now apply Forall_app.
  - now exists d1.
Qed.

Lemma appends_try_except (body : M A) (handler : exn -> M A) :
  appends P body -> (forall e, appends P (handler e)) ->
  appends P (try_except body handler).
Proof.
  intros Hb Hh w. unfold try_except.
  destruct (Hb w) as (d1 & Hd1 & HP1).
  destruct (body w) as [[a | e] w1]; cbn [snd] in *.
  - now exists d1.
  - destruct (Hh e w1) as (d2 & Hd2 & HP2).
    exists (d1 ++ d2). split.
    + now rewrite Hd2, Hd1, app_assoc.
    + now apply Forall_app.
Qed.

Lemma appends_try_finally (body : M A) (cleanup : M unit) :
  appends P body -> appends P cleanup ->
  appends P (try_finally body cleanup).
Proof.
  intros Hb Hc w. unfold try_finally.
  destruct (Hb w) as (d1 & Hd1 & HP1).
  destruct (body w) as [r w1]; cbn [snd] in *.
  destruct (Hc w1) as (d2 & Hd2 & HP2).
  exists (d1 ++ d2). split.
  - destruct (cleanup w1) as [[[] | e] w2]; cbn [snd] in *;
      now rewrite Hd2, Hd1, app_assoc.
  - now apply Forall_app.
Qed.

End Appends.

(** Break a computation down to its primitive steps; what remains are the
    side conditions on the effects it emits. *)
Ltac appends_step :=
  first
    [ apply appends_ret
    | apply appends_raise
    | apply appends_history
    | apply appends_path_exists
    | apply appends_emit
    | apply appends_unlink
    | apply appends_bind; [| intros ?]
    | apply appends_try_except; [| intros ?]
    | apply appends_try_finally
    | match goal with
      | |- appends _ (if ?b then _ else _) => destruct b
      | |- appends _ (match ?x with _ => _ end) => destruct x
      end ].

Ltac appends_auto := repeat appends_step; try exact I.

Lemma run_tool_appends (h : host) argv stdin env : appends quiet (run_tool h argv stdin env).
Proof. unfold run_tool. appends_auto. Qed.

Lemma transcribe_appends (h : host) wav lang : appends quiet (transcribe h wav lang).
Proof. unfold transcribe. appends_auto. Qed.

Lemma paste_text_appends (h : host) text method hotkey clip kd cd :
  appends quiet (paste_text h text method hotkey clip kd cd).
Proof.
  unfold paste_text, wtype_clipboard, ydotool_env, ydotool_clipboard.
  repeat first [apply run_tool_appends | appends_step]; exact I.
Qed.

Lemma remove_wav_appends wav : appends quiet (remove_wav wav).
Proof. unfold remove_wav. appends_auto. Qed.

Lemma utterance_scope_appends (h : host) (self : DictationService) wav :
  appends quiet (utterance_scope h self wav).
Proof.
  unfold utterance_scope, transcribe_and_paste, report_failure, _text, _error.
  repeat first
    [ apply transcribe_appends | apply paste_text_appends
    | apply remove_wav_appends | appends_step ]; exact I.
Qed.

(** ** The temporary file of an utterance *)

Lemma nonempty_app_cons (a : string) (c : ascii) (b : string) :
  Str.nonempty (a +:+ String c b) = true.
Proof. unfold Str.nonempty. destruct a; reflexivity. Qed.

(** The name [start_recording] hands out is never the empty string. *)
Lemma start_recording_name (h : host) (w0 w1 : world) (session : Popen * string) :
  start_recording h w0 = (Ok session, w1) ->
  Str.nonempty (snd session) = true /\ snd session ∈ files w1.
Proof.
  unfold start_recording, bind, named_temporary_file, popen, bind, history,
    emit, ret, raise.
  cbn. destruct (popen_error h _ _); [discriminate |].
  intros Heq. injection Heq as <- <-. cbn. split.
  - apply nonempty_app_cons.
  - set_solver.
Qed.

(** The [finally] clause: it never raises and the file is gone after it. *)
Lemma remove_wav_removes (p : string) (w : world) :
  Str.nonempty p = true ->
  fst (remove_wav (Some p) w) = Ok tt
  /\ p ∉ files (snd (remove_wav (Some p) w)).
Proof.
  intros Hne. unfold remove_wav, bind, path_exists, unlink, ret.
  rewrite Hne. destruct (bool_decide_reflect (p ∈ files w)) as [Hin | Hin]; cbn.
  - split; [reflexivity |].
    intros [_ Hn]%elem_of_difference. apply Hn. now apply elem_of_singleton.
  - split; [reflexivity | exact Hin].
Qed.

Lemma remove_wav_ok (wav : option string) (w : world) :
  fst (remove_wav wav w) = Ok tt.
Proof.
  unfold remove_wav, bind, path_exists, unlink, ret.
  destruct wav as [p |]; [| reflexivity].
  destruct (Str.nonempty p); [| reflexivity].
  destruct (bool_decide (p ∈ files w)); reflexivity.
Qed.

(** The scope of a key-up never lets an exception out. *)
Lemma utterance_scope_ok (h : host) (self : DictationService)
    (wav : option string) (w : world) :
  fst (utterance_scope h self wav w) = Ok tt.
Proof.
  unfold utterance_scope, try_finally, try_except.
  destruct (transcribe_and_paste h self wav w) as [[[] | e] w1].
  - pose proof (remove_wav_ok wav w1) as Hc.
    destruct (remove_wav wav w1) as [[[] | e] w2]; [reflexivity | discriminate].
  - unfold report_failure, _error, emit. cbn.
    match goal with |- context [remove_wav wav ?w'] =>
      pose proof (remove_wav_ok wav w') as Hc;
      destruct (remove_wav wav w') as [[[] | e'] w2]
    end; [reflexivity | discriminate].
Qed.

Lemma utterance_scope_removes (h : host) (self : DictationService)
    (p : string) (w : world) :
  Str.nonempty p = true ->
  p ∉ files (snd (utterance_scope h self (Some p) w)).
Proof.
  intros Hne. unfold utterance_scope, try_finally.
  destruct (try_except _ _ w) as [r w1].
  destruct (remove_wav_removes p w1 Hne) as [Hok Hgone].
  destruct (remove_wav (Some p) w1) as [[[] | e] w2]; cbn [snd fst] in *;
    [exact Hgone | discriminate].
Qed.

(** [stop_recording] never raises, leaves the disk alone, and starts with
    the [poll] of the process. *)
Lemma stop_recording_spec (h : host) (p : Popen) (w : world) :
  exists d, stop_recording h p w
            = (Ok tt, {| log := log w ++ Poll p :: d; files := files w |})
            /\ Forall quiet d.
Proof.
  unfold stop_recording, bind, history, emit, ret. cbn.
  destruct (has_exited h (log w) p).
  - exists []. split; [reflexivity | constructor].
  - cbn. destruct (wait_expired h _ p); cbn.
    + exists [SendSigint p; Wait p 2; Terminate p]. split.
      * now rewrite <- !app_assoc.
      * repeat constructor.
    + exists [SendSigint p; Wait p 2]. split.
      * now rewrite <- !app_assoc.
      * repeat constructor.
Qed.

(** A key-up while recording, unfolded up to the scope. *)
Lemma handle_event_key_up (h : host) (self : DictationService) (st : loop_vars)
    (event : InputEvent) (w : world) (p : Popen) :
  ev_type event = EV_KEY ->
  ev_code event = self_key_code self ->
  ev_value event = 0 ->
  recording st = true ->
  proc st = Some p ->
  handle_event h self st event w =
    (utterance_scope h self (wav_path st) ;;;
     _status "ready" ;;;
     ret {| recording := false; proc := proc st; wav_path := wav_path st |})
    (snd ((stop_recording h p ;;; emit (Sleep 100) ;;; _status "transcribing") w)).
Proof.
  intros Ht Hc Hv Hr Hp. unfold handle_event.
  rewrite Ht, Hc, Hv, Hr, Hp, !Z.eqb_refl. cbn [negb andb Z.eqb stop_recording_var].
  destruct (stop_recording_spec h p w) as (d & Hstop & _).
  unfold bind. rewrite Hstop. reflexivity.
Qed.

(** C4: the temporary file of an utterance, as [start_recording] created
    it, does not exist when the transcribe/paste scope of its key-up is
    left, and neither after the handling of the key-up, whatever the
    outcome of the transcription and of the paste. *)
Theorem C4_temporary_file_removed :
  forall (h : host) (self : DictationService) (w0 w1 : world)
         (session : Popen * string) (st : loop_vars) (event : InputEvent)
         (w : world),
    start_recording h w0 = (Ok session, w1) ->
    recording st = true ->
    proc st = Some (fst session) ->
    wav_path st = Some (snd session) ->
    ev_type event = EV_KEY ->
    ev_code event = self_key_code self ->
    ev_value event = 0 ->
    (snd session ∉ files (snd (utterance_scope h self (wav_path st) w)))
    /\ (snd session ∉ files (snd (handle_event h self st event w))).
Proof.
  intros h self w0 w1 session st event w Hstart Hr Hp Hw Ht Hc Hv.
  destruct (start_recording_name h w0 w1 session Hstart) as [Hne _].
  split.
  - rewrite Hw. now apply utterance_scope_removes.
  - rewrite (handle_event_key_up h self st event w (fst session)) by assumption.
    set (entry := snd ((stop_recording h (fst session) ;;; _) w)).
    pose proof (utterance_scope_removes h self (snd session) entry Hne) as Hgone.
    pose proof (utterance_scope_ok h self (Some (snd session)) entry) as Hok.
    rewrite Hw. unfold bind at 1.
    destruct (utterance_scope h self (Some (snd session)) entry) as [[[] | e] w2];
      cbn [fst snd] in *; [exact Hgone | discriminate].
Qed.

Lemma C4_witness :
  "/tmp/whisper-fn-u0.wav" ∉
    files (snd (handle_event
      (Demo.make Demo.wayland_env ["ydotool"; "wl-copy"] [Demo.fn_keyboard]
         (Demo.always 1) (Ok ["hello"]))
      (Demo.service "ydotool")
      {| recording := true; proc := Some 1%nat;
         wav_path := Some "/tmp/whisper-fn-u0.wav" |}
      (Demo.key 0)
      {| log := [MkTemp "/tmp/whisper-fn-u0.wav";
                 Spawn 1%nat (arecord_cmd "/tmp/whisper-fn-u0.wav");
                 Status "recording"];
         files := {[ "/tmp/whisper-fn-u0.wav" ]} |})).
Proof.
  refine (proj2 (C4_temporary_file_removed
    (Demo.make Demo.wayland_env ["ydotool"; "wl-copy"] [Demo.fn_keyboard]
       (Demo.always 1) (Ok ["hello"]))
    (Demo.service "ydotool")
    Demo.empty_world
    {| log := [MkTemp "/tmp/whisper-fn-u0.wav";
               Spawn 1%nat (arecord_cmd "/tmp/whisper-fn-u0.wav")];
       files := {[ "/tmp/whisper-fn-u0.wav" ]} ∪ ∅ |}
    (1%nat, "/tmp/whisper-fn-u0.wav")
    {| recording := true; proc := Some 1%nat;
       wav_path := Some "/tmp/whisper-fn-u0.wav" |}
    (Demo.key 0) _ _ _ _ _ _ _ _)); reflexivity.
Defined.

(** The three ways out of the scope, on concrete hosts: the paste fails,
    the transcription fails, both succeed.  Each time the file that
    existed at the key-up is gone and the service is idle again. *)
Example key_up_paste_fails :
  outcome (Demo.make Demo.wayland_env ["wtype"] [Demo.fn_keyboard]
             (Demo.always 1) (Ok [" hello"; " world "])) "wtype"
  = (Ok {| recording := false; proc := Some 2%nat;
           wav_path := Some "/tmp/whisper-fn-u1.wav" |},
     [Recognise (Some "/tmp/whisper-fn-u1.wav") "en";
      Text "hello world";
      Run ["wtype"; "-d"; "1"; "--"; "hello world"] None None;
      Run ["wtype"; "-"] (Some "hello world") None;
      Error "Transcribe/paste error: wtype failed to type or paste text";
      Unlink "/tmp/whisper-fn-u1.wav";
      Status "ready"],
     []).
Proof. vm_compute. reflexivity. Qed.

Example key_up_transcription_fails :
  outcome (Demo.make Demo.wayland_env ["wtype"] [Demo.fn_keyboard]
             (Demo.always 0) (Raise (RuntimeError "model failure"))) "wtype"
  = (Ok {| recording := false; proc := Some 2%nat;
           wav_path := Some "/tmp/whisper-fn-u1.wav" |},
     [Recognise (Some "/tmp/whisper-fn-u1.wav") "en";
      Error "Transcribe/paste error: model failure";
      Unlink "/tmp/whisper-fn-u1.wav";
      Status "ready"],
     []).
Proof. vm_compute. reflexivity. Qed.

Example key_up_succeeds :
  outcome (Demo.make Demo.wayland_env ["wtype"] [Demo.fn_keyboard]
             (Demo.always 0) (Ok ["hello world"])) "wtype"
  = (Ok {| recording := false; proc := Some 2%nat;
           wav_path := Some "/tmp/whisper-fn-u1.wav" |},
     [Recognise (Some "/tmp/whisper-fn-u1.wav") "en";
      Text "hello world";
      Run ["wtype"; "-d"; "1"; "--"; "hello world"] None None;
      Unlink "/tmp/whisper-fn-u1.wav";
      Status "ready"],
     []).
Proof. vm_compute. reflexivity. Qed.

(** ** Failures of an utterance *)

Lemma remove_wav_spec (wav : option string) (w : world) :
  exists cleanup w',
    remove_wav wav w = (Ok tt, w')
    /\ log w' = log w ++ cleanup
    /\ Forall is_unlink cleanup.
Proof.
  unfold remove_wav, bind, path_exists, unlink, ret.
  destruct wav as [p |].
  - destruct (Str.nonempty p).
    + destruct (bool_decide (p ∈ files w)).
      * exists [Unlink p]. eexists. split; [reflexivity |]. split; [reflexivity |].
        repeat constructor. now exists p.
      * exists []. eexists. split; [reflexivity |].
        split; [now rewrite app_nil_r | constructor].
    + exists []. eexists. split; [reflexivity |].
      split; [now rewrite app_nil_r | constructor].
  - exists []. eexists. split; [reflexivity |].
    split; [now rewrite app_nil_r | constructor].
Qed.

Lemma last_status_snoc (l : list effect) (message : string) :
  last_status (l ++ [Status message]) = Some message.
Proof. unfold last_status. now rewrite fold_left_app. Qed.

(** Once an event is handled without an exception, the loop goes on with
    the events and the turns that remain. *)
Lemma run_loop_continues (h : host) (self : DictationService)
    (event : InputEvent) (events : list InputEvent) (rest : list poll)
    (st st' : loop_vars) (w w' : world) :
  handle_event h self st event w = (Ok st', w') ->
  run_loop h self (Readable (event :: events) :: rest) st w
  = run_loop h self (Readable events :: rest) st' w'.
Proof.
  intros Hh. cbn [run_loop for_each]. unfold bind at 1 2. now rewrite Hh.
Qed.

(** C5: when the transcription or the paste of an utterance raises, the
    key-up is still handled without an exception: the failure is reported
    on the error channel, the recording flag is cleared, the status
    ["ready"] is emitted last, and the loop goes on with the remaining
    events and turns. *)
Theorem C5_utterance_failure_is_recovered :
  forall (h : host) (self : DictationService) (st : loop_vars)
         (event : InputEvent) (w : world) (p : Popen) (e : exn) (w2 : world),
    ev_type event = EV_KEY ->
    ev_code event = self_key_code self ->
    ev_value event = 0 ->
    recording st = true ->
    proc st = Some p ->
    transcribe_and_paste h self (wav_path st)
      (snd ((stop_recording h p ;;; emit (Sleep 100) ;;; _status "transcribing") w))
      = (Raise e, w2) ->
    exists (w3 : world) (cleanup : list effect),
      let idle := {| recording := false; proc := proc st; wav_path := wav_path st |} in
      handle_event h self st event w = (Ok idle, w3)
      /\ log w3 = log w2 ++ [Error ("Transcribe/paste error: " +:+ exn_str e)]
                    ++ cleanup ++ [Status "ready"]
      /\ Forall is_unlink cleanup
      /\ last_status (log w3) = Some "ready"
      /\ (forall events rest,
            run_loop h self (Readable (event :: events) :: rest) st w
            = run_loop h self (Readable events :: rest) idle w3).
Proof.
  intros h self st event w p e w2 Ht Hc Hv Hr Hp Hbody.
  pose proof (handle_event_key_up h self st event w p Ht Hc Hv Hr Hp) as Hh.
  set (entry := snd ((stop_recording h p ;;; _) w)) in *.
  set (w2e := {| log := log w2 ++ [Error ("Transcribe/paste error: " +:+ exn_str e)];
                 files := files w2 |}).
  destruct (remove_wav_spec (wav_path st) w2e) as (cleanup & w2c & Hrm & Hlog & Hcl).
  set (w3 := {| log := log w2c ++ [Status "ready"]; files := files w2c |}).
  assert (Hres : handle_event h self st event w
                 = (Ok {| recording := false; proc := proc st; wav_path := wav_path st |}, w3)).
  { rewrite Hh. unfold bind at 1. unfold utterance_scope, try_finally, try_except.
    rewrite Hbody. unfold report_failure, _error, emit at 1. cbn [log files].
    fold w2e. rewrite Hrm. reflexivity. }
  exists w3, cleanup. cbv zeta.
  split; [exact Hres |].
  split; [unfold w3; cbn [log]; rewrite Hlog; unfold w2e; cbn [log];
          now rewrite <- !app_assoc |].
  split; [exact Hcl |].
  split; [unfold w3; cbn [log]; apply last_status_snoc |].
  intros events rest. now apply run_loop_continues.
Qed.

Lemma C5_witness :
  exists (w3 : world) (cleanup : list effect),
    handle_event
      (Demo.make Demo.wayland_env ["wtype"] [Demo.fn_keyboard]
         (Demo.always 0) (Raise (RuntimeError "model failure")))
      (Demo.service "wtype") recording_vars (Demo.key 0) recording_world
    = (Ok {| recording := false; proc := Some 2%nat;
             wav_path := Some "/tmp/whisper-fn-u1.wav" |}, w3)
    /\ last_status (log w3) = Some "ready"
    /\ Forall is_unlink cleanup.
Proof.
  destruct (C5_utterance_failure_is_recovered
    (Demo.make Demo.wayland_env ["wtype"] [Demo.fn_keyboard]
       (Demo.always 0) (Raise (RuntimeError "model failure")))
    (Demo.service "wtype") recording_vars (Demo.key 0) recording_world
    2%nat (RuntimeError "model failure")
    {| log := log recording_world ++
               [Poll 2%nat; SendSigint 2%nat; Wait 2%nat 2; Sleep 100;
                Status "transcribing";
                Recognise (Some "/tmp/whisper-fn-u1.wav") "en"];
       files := files recording_world |}
    eq_refl eq_refl eq_refl eq_refl eq_refl eq_refl)
    as (w3 & cleanup & Hres & _ & Hcl & Hlast & _).
  exists w3, cleanup. split; [exact Hres |]. split; assumption.
Defined.

(** ** One session at a time *)

Lemma prefix_snoc_inv {A} (pre l : list A) (x : A) :
  pre `prefix_of` (l ++ [x]) -> pre `prefix_of` l \/ pre = l ++ [x].
Proof.
  intros [k Hk]. destruct k as [| y k' _] using rev_ind.
  - right. now rewrite app_nil_r in Hk.
  - left. rewrite app_assoc in Hk. apply app_inj_tail in Hk as [Hk _].
    now exists k'.
Qed.

Lemma open_sessions_snoc (l : list effect) (e : effect) :
  open_sessions (l ++ [e]) = session_step (open_sessions l) e.
Proof. unfold open_sessions. now rewrite fold_left_app. Qed.

Lemma last_status_step (l : list effect) (e : effect) :
  last_status (l ++ [e]) = status_step (last_status l) e.
Proof. unfold last_status. now rewrite fold_left_app. Qed.

Lemma disciplined_nil : disciplined [].
Proof.
  split.
  - intros pre [k Hk]. symmetry in Hk. apply app_eq_nil in Hk as [-> _].
    cbn. lia.
  - intros pre p argv [k Hk]. symmetry in Hk.
    apply app_eq_nil in Hk as [Hk _]. now apply app_eq_nil in Hk as [_ Hk].
Qed.

Lemma disciplined_here (l : list effect) :
  disciplined l -> (List.length (open_sessions l) <= 1)%nat.
Proof. intros [H1 _]. apply H1. now exists []; rewrite app_nil_r. Qed.

(** Adding one effect keeps the discipline when the effect is allowed
    where it stands. *)
Lemma disciplined_snoc (l : list effect) (e : effect) :
  disciplined l ->
  (List.length (session_step (open_sessions l) e) <= 1)%nat ->
  (forall p argv, e = Spawn p argv ->
     open_sessions l = [] /\ last_status l = Some "ready") ->
  disciplined (l ++ [e]).
Proof.
  intros [H1 H2] Hlen Hspawn. split.
  - intros pre [Hpre | ->]%prefix_snoc_inv.
    + now apply H1.
    + now rewrite open_sessions_snoc.
  - intros pre p argv [Hpre | Heq]%prefix_snoc_inv.
    + now apply (H2 pre p argv).
    + apply app_inj_tail in Heq as [-> <-]. now apply (Hspawn p argv).
Qed.

Lemma session_step_quiet (open : list Popen) (e : effect) :
  quiet e -> session_step open e = open.
Proof. destruct e; cbn; intros H; try reflexivity; destruct H. Qed.

Lemma status_step_quiet (cur : option string) (e : effect) :
  quiet e -> status_step cur e = cur.
Proof. destruct e; cbn; intros H; try reflexivity; destruct H. Qed.

Lemma disciplined_quiet (l d : list effect) :
  disciplined l -> Forall quiet d ->
  disciplined (l ++ d)
  /\ open_sessions (l ++ d) = open_sessions l
  /\ last_status (l ++ d) = last_status l.
Proof.
  intros Hl Hd. revert l Hl.
  induction Hd as [| e d He Hd IH]; intros l Hl.
  - now rewrite app_nil_r.
  - replace (l ++ e :: d) with ((l ++ [e]) ++ d) by now rewrite <- app_assoc.
    assert (Hle : disciplined (l ++ [e])).
    { apply disciplined_snoc; [exact Hl | |].
      - rewrite session_step_quiet by exact He. now apply disciplined_here.
      - intros p argv ->. destruct He. }
    destruct (IH _ Hle) as (Hd' & Ho & Hs).
    split; [exact Hd' |].
    rewrite Ho, Hs, open_sessions_snoc, last_status_step.
    now rewrite session_step_quiet, status_step_quiet.
Qed.

Lemma disciplined_status (l : list effect) (message : string) :
  disciplined l ->
  disciplined (l ++ [Status message])
  /\ open_sessions (l ++ [Status message]) = open_sessions l.
Proof.
  intros Hl. split.
  - apply disciplined_snoc; [exact Hl | | discriminate].
    cbn [session_step]. now apply disciplined_here.
  - now rewrite open_sessions_snoc.
Qed.

Lemma filter_length_le {A} (f : A -> bool) (l : list A) :
  (List.length (List.filter f l) <= List.length l)%nat.
Proof.
  induction l as [| a l IH]; cbn; [lia |]. destruct (f a); cbn; lia.
Qed.

Lemma disciplined_poll (l : list effect) (p : Popen) :
  disciplined l ->
  disciplined (l ++ [Poll p])
  /\ open_sessions (l ++ [Poll p])
     = List.filter (fun q => negb (Nat.eqb q p)) (open_sessions l).
Proof.
  intros Hl. split.
  - apply disciplined_snoc; [exact Hl | | discriminate].
    cbn [session_step].
    eapply Nat.le_trans; [apply filter_length_le | now apply disciplined_here].
  - now rewrite open_sessions_snoc.
Qed.

Lemma disciplined_spawn (l : list effect) (p : Popen) (argv : list string) :
  disciplined l -> open_sessions l = [] -> last_status l = Some "ready" ->
  disciplined (l ++ [Spawn p argv])
  /\ open_sessions (l ++ [Spawn p argv]) = [p].
Proof.
  intros Hl Ho Hs. split.
  - apply disciplined_snoc; [exact Hl | | now intros].
    cbn [session_step]. rewrite Ho. cbn. reflexivity.
  - rewrite open_sessions_snoc. cbn [session_step]. now rewrite Ho.
Qed.

Lemma handle_event_ignored (h : host) (self : DictationService) (st : loop_vars)
    (event : InputEvent) (w : world) :
  acts self st event = false -> handle_event h self st event w = (Ok st, w).
Proof.
  unfold acts, handle_event.
  destruct (ev_type event =? EV_KEY); [| reflexivity].
  destruct (ev_code event =? self_key_code self); [| reflexivity].
  cbn [andb negb].
  destruct ((ev_value event =? 1) && negb (recording st)); [discriminate |].
  destruct ((ev_value event =? 0) && recording st); [discriminate |].
  reflexivity.
Qed.

Lemma handle_event_key_down (h : host) (self : DictationService) (st : loop_vars)
    (event : InputEvent) (w : world) :
  ev_type event = EV_KEY ->
  ev_code event = self_key_code self ->
  ev_value event = 1 ->
  recording st = false ->
  handle_event h self st event w =
    (session <- start_recording h ;;
     _status "recording" ;;;
     ret {| recording := true; proc := Some (fst session);
            wav_path := Some (snd session) |}) w.
Proof.
  intros Ht Hc Hv Hr. unfold handle_event.
  now rewrite Ht, Hc, Hv, Hr, !Z.eqb_refl.
Qed.

(** The log at the entry of the scope of a key-up. *)
Lemma scope_entry_log (h : host) (p : Popen) (w : world) :
  exists d,
    Forall quiet d
    /\ log (snd ((stop_recording h p ;;; emit (Sleep 100) ;;;
                  _status "transcribing") w))
       = ((log w ++ [Poll p]) ++ (d ++ [Sleep 100])) ++ [Status "transcribing"].
Proof.
  destruct (stop_recording_spec h p w) as (d & Hstop & Hd).
  exists d. split; [exact Hd |].
  unfold bind. rewrite Hstop. cbn.
  now rewrite <- !app_assoc.
Qed.

Lemma handle_event_discipline (h : host) (self : DictationService)
    (st : loop_vars) (event : InputEvent) (w : world) :
  disciplined (log w) -> agrees st (log w) ->
  match handle_event h self st event w with
  | (Ok st', w') => disciplined (log w') /\ agrees st' (log w')
  | (Raise _, w') => disciplined (log w')
  end.
Proof.
  intros Hd Ha.
  destruct (acts self st event) eqn:Hacts.
  2: { now rewrite handle_event_ignored. }
  unfold acts in Hacts.
  apply andb_prop in Hacts as [Hkey Hval].
  apply andb_prop in Hkey as [Ht%Z.eqb_eq Hc%Z.eqb_eq].
  apply orb_prop in Hval as [Hdown | Hup].
  - (* key-down while idle *)
    apply andb_prop in Hdown as [Hv%Z.eqb_eq Hr%negb_true_iff].
    rewrite handle_event_key_down by assumption.
    unfold agrees in Ha. rewrite Hr in Ha. destruct Ha as [Ho Hs].
    unfold start_recording, named_temporary_file, popen, bind, history, emit,
      ret, raise, _status, emit.
    cbn [log files fst snd].
    set (name := gettempdir h +:+ _).
    destruct (disciplined_quiet (log w) [MkTemp name] Hd) as (Hd1 & Ho1 & Hs1);
      [repeat constructor |].
    destruct (popen_error h _ _); cbn [log files fst snd]; [exact Hd1 |].
    rewrite <- Ho1 in Ho. rewrite <- Hs1 in Hs.
    set (pid := List.length (log w ++ [MkTemp name])).
    destruct (disciplined_spawn _ pid (arecord_cmd name) Hd1 Ho Hs) as [Hd2 Ho2].
    destruct (disciplined_status _ "recording" Hd2) as [Hd3 Ho3].
    split; [exact Hd3 |].
    unfold agrees. cbn [recording proc]. exists pid.
    split; [reflexivity |]. split; [now rewrite Ho3 |].
    now rewrite last_status_step.
  - (* key-up while recording *)
    apply andb_prop in Hup as [Hv%Z.eqb_eq Hr].
    unfold agrees in Ha. rewrite Hr in Ha. destruct Ha as (p & Hp & Ho & Hs).
    rewrite (handle_event_key_up h self st event w p) by assumption.
    destruct (scope_entry_log h p w) as (d & Hq & Hentry).
    set (entry := snd ((stop_recording h p ;;; _) w)) in *.
    destruct (disciplined_poll (log w) p Hd) as [Hd1 Ho1].
    rewrite Ho in Ho1. cbn in Ho1. rewrite Nat.eqb_refl in Ho1. cbn in Ho1.
    destruct (disciplined_quiet _ (d ++ [Sleep 100]) Hd1) as (Hd2 & Ho2 & _).
    { apply Forall_app. split; [exact Hq | repeat constructor]. }
    destruct (disciplined_status _ "transcribing" Hd2) as [Hd3 Ho3].
    rewrite <- Hentry in Hd3, Ho3.
    pose proof (utterance_scope_ok h self (wav_path st) entry) as Hok.
    destruct (utterance_scope_appends h self (wav_path st) entry)
      as (d2 & Hlog2 & Hq2).
    unfold bind at 1.
    destruct (utterance_scope h self (wav_path st) entry) as [[[] | e] w2];
      cbn [fst snd] in *; [| discriminate].
    destruct (disciplined_quiet _ d2 Hd3 Hq2) as (Hd4 & Ho4 & _).
    rewrite <- Hlog2 in Hd4, Ho4.
    destruct (disciplined_status _ "ready" Hd4) as [Hd5 Ho5].
    unfold bind, _status, emit, ret. cbn [log files fst snd].
    split; [exact Hd5 |].
    unfold agrees. cbn [recording]. split.
    + now rewrite Ho5, Ho4, Ho3, Ho2.
    + now rewrite last_status_step.
Qed.

Lemma for_each_discipline (h : host) (self : DictationService)
    (events : list InputEvent) (st : loop_vars) (w : world) :
  disciplined (log w) -> agrees st (log w) ->
  match for_each (handle_event h self) events st w with
  | (Ok st', w') => disciplined (log w') /\ agrees st' (log w')
  | (Raise _, w') => disciplined (log w')
  end.
Proof.
  revert st w. induction events as [| event events IH]; intros st w Hd Ha.
  - now split.
  - cbn [for_each]. unfold bind.
    pose proof (handle_event_discipline h self st event w Hd Ha) as Hstep.
    destruct (handle_event h self st event w) as [[st' | e] w']; [| exact Hstep].
    destruct Hstep as [Hd' Ha']. now apply IH.
Qed.

Lemma agrees_quiet (st : loop_vars) (l d : list effect) :
  disciplined l -> agrees st l -> Forall quiet d ->
  disciplined (l ++ d) /\ agrees st (l ++ d).
Proof.
  intros Hd Ha Hq. destruct (disciplined_quiet l d Hd Hq) as (Hd' & Ho & Hs).
  split; [exact Hd' |]. unfold agrees in *. now rewrite Ho, Hs.
Qed.

Lemma run_loop_discipline (h : host) (self : DictationService)
    (script : list poll) (st : loop_vars) (w : world) :
  disciplined (log w) -> agrees st (log w) ->
  match run_loop h self script st w with
  | (Ok st', w') => disciplined (log w') /\ agrees st' (log w')
  | (Raise _, w') => disciplined (log w')
  end.
Proof.
  revert st w. induction script as [| turn script IH]; intros st w Hd Ha.
  - now split.
  - destruct turn as [exc | | exc | events]; cbn [run_loop].
    + unfold bind, _error, emit, ret. cbn [log files].
      apply agrees_quiet; [assumption | assumption | repeat constructor].
    + now apply IH.
    + unfold bind, _error, emit, ret. cbn [log files].
      apply agrees_quiet; [assumption | assumption | repeat constructor].
    + unfold bind.
      pose proof (for_each_discipline h self events st w Hd Ha) as Hstep.
      destruct (for_each (handle_event h self) events st w) as [[st' | e] w'];
        [| exact Hstep].
      destruct Hstep as [Hd' Ha']. now apply IH.
Qed.

Lemma shutdown_discipline (h : host) (st : loop_vars) (w : world) :
  disciplined (log w) -> disciplined (log (snd (shutdown h st w))).
Proof.
  intros Hd. unfold shutdown.
  destruct (proc st) as [p |]; [| exact Hd].
  destruct (recording st); [| exact Hd].
  unfold bind.
  destruct (stop_recording_spec h p w) as (d & Hstop & Hq). rewrite Hstop.
  destruct (remove_wav_appends (wav_path st)
              {| log := log w ++ Poll p :: d; files := files w |})
    as (d2 & Hlog & Hq2).
  rewrite Hlog. cbn [log].
  destruct (disciplined_poll (log w) p Hd) as [Hd1 _].
  replace (log w ++ Poll p :: d) with ((log w ++ [Poll p]) ++ d)
    by now rewrite <- app_assoc.
  destruct (disciplined_quiet _ d Hd1 Hq) as (Hd2 & _ & _).
  now destruct (disciplined_quiet _ d2 Hd2 Hq2) as (Hd3 & _ & _).
Qed.

Lemma run_discipline (h : host) (self : DictationService) (script : list poll)
    (fs : gset string) :
  disciplined (log (snd (run h self script {| log := []; files := fs |}))).
Proof.
  unfold run. unfold bind at 1. unfold _status at 1, emit at 1.
  cbn [log files app].
  set (w0 := {| log := [Status "ready"]; files := fs |}).
  assert (Hd0 : disciplined (log w0)).
  { apply (disciplined_status [] "ready" disciplined_nil). }
  assert (Ha0 : agrees initial_vars (log w0)) by (split; reflexivity).
  pose proof (run_loop_discipline h self script initial_vars w0 Hd0 Ha0) as Hloop.
  unfold bind.
  destruct (run_loop h self script initial_vars w0) as [[st | e] w1].
  - destruct Hloop as [Hd1 _]. now apply shutdown_discipline.
  - exact Hloop.
Qed.

(** C6: a key-down of the configured key while recording changes neither
    the loop variables nor the world, so it starts no session; and in
    every run of the service, at every point of its log, at most one
    session is open, and every session was started with none open and
    with ["ready"] as the last status, hence never during the recording
    or the transcribing state. *)
Theorem C6_at_most_one_session :
  forall (h : host) (self : DictationService),
    (forall (st : loop_vars) (event : InputEvent) (w : world),
        ev_type event = EV_KEY ->
        ev_code event = self_key_code self ->
        ev_value event = 1 ->
        recording st = true ->
        handle_event h self st event w = (Ok st, w))
    /\ (forall (script : list poll) (fs : gset string),
          let l := log (snd (run h self script {| log := []; files := fs |})) in
          at_most_one_session l /\ starts_from_idle l).
Proof.
  intros h self. split.
  - intros st event w Ht Hc Hv Hr. apply handle_event_ignored.
    unfold acts. now rewrite Ht, Hc, Hv, Hr, !Z.eqb_refl.
  - intros script fs l. apply run_discipline.
Qed.

(** A run in which the key goes down twice and repeats before it goes
    up: one session is started, and it is the one that is stopped. *)
Example run_with_repeated_key_down :
  let h := Demo.make Demo.wayland_env ["wtype"] [Demo.fn_keyboard]
             (Demo.always 0) (Ok ["hello"]) in
  let after (script : list poll) :=
    log (snd (run_loop h (Demo.service "wtype") script initial_vars
                {| log := [Status "ready"]; files := ∅ |})) in
  open_sessions (after [Readable [Demo.key 1; Demo.key 1; Demo.key 2]]) = [2%nat]
  /\ open_sessions
       (after [Readable [Demo.key 1; Demo.key 1]; NotReadable;
               Readable [Demo.key 2; Demo.key 0]]) = []
  /\ List.length
       (List.filter (fun e => match e with Spawn _ _ => true | _ => false end)
          (after [Readable [Demo.key 1; Demo.key 1]; NotReadable;
                  Readable [Demo.key 2; Demo.key 0; Demo.key 0]])) = 1%nat.
Proof. cbv zeta. repeat split; vm_compute; reflexivity. Qed.

(** * Further properties of the code *)

(** ** Key names *)

(** X1: a key name may be given bare or with its [KEY_] prefix: the bare
    form resolves exactly as the prefixed one, and when it is unknown the
    error names the prefixed form. *)
Theorem X1_resolve_key_code_bare_name :
  forall (h : host) (name : string),
    Str.startswith name "KEY_" = false ->
    resolve_key_code h name = resolve_key_code h ("KEY_" +:+ name)
    /\ (forall e, resolve_key_code h name = Raise e ->
          e = UnknownKey ("KEY_" +:+ name)
          /\ ecodes h !! ("KEY_" +:+ name) = None)
    /\ (forall code, resolve_key_code h name = Ok code ->
          ecodes h !! ("KEY_" +:+ name) = Some code).
Proof.
  intros h name Hbare.
  assert (Hpre : Str.startswith ("KEY_" +:+ name) "KEY_" = true)
    by (destruct name; reflexivity).
  unfold resolve_key_code. rewrite Hbare, Hpre. cbn [negb].
  split; [reflexivity |].
  destruct (ecodes h !! ("KEY_" +:+ name)) as [code |].
  - split; [discriminate |]. now intros c [= <-].
  - split; [| discriminate]. now intros e [= <-].
Qed.

Lemma X1_witness :
  resolve_key_code
    (Demo.make Demo.wayland_env [] [] (Demo.always 0) (Ok [])) "FN"
  = resolve_key_code
    (Demo.make Demo.wayland_env [] [] (Demo.always 0) (Ok [])) "KEY_FN".
Proof.
  exact (proj1 (X1_resolve_key_code_bare_name
    (Demo.make Demo.wayland_env [] [] (Demo.always 0) (Ok [])) "FN" eq_refl)).
Defined.

(** ** Device resolution, all cases of auto-detection *)

(** X2: auto-detection fails exactly when no device is enumerated;
    the device it returns is always an enumerated one, and it is either
    a device that is no pointer and declares the key, or the first
    enumerated device when no such device exists. *)
Theorem X2_pick_keyboard_device_auto_cases :
  forall (h : host) (key_code : Z),
    ((exists e, pick_keyboard_device h key_code "auto" = Raise e)
     <-> list_devices h = [])
    /\ (forall e, pick_keyboard_device h key_code "auto" = Raise e ->
          e = NoDeviceFound)
    /\ (forall dev, pick_keyboard_device h key_code "auto" = Ok dev ->
          In dev (list_devices h)
          /\ ((is_pointer dev = false /\ declares_key key_code dev = true)
              \/ (hd_error (list_devices h) = Some dev
                  /\ forall d, In d (list_devices h) -> is_pointer d = false ->
                               declares_key key_code d = false))).
Proof.
  intros h key_code. rewrite pick_keyboard_device_auto.
  destruct (List.find _ (list_devices h)) as [found |] eqn:Hfind.
  - apply find_some in Hfind as [Hin Hok].
    apply andb_prop in Hok as [Hp%negb_true_iff Hd].
    split; [| split].
    + split; [intros [e He]; discriminate He |].
      intros Hnil. rewrite Hnil in Hin. destruct Hin.
    + discriminate.
    + intros dev [= <-]. split; [exact Hin | now left].
  - pose proof (find_none _ _ Hfind) as Hnone.
    destruct (list_devices h) as [| dev0 rest].
    + split; [| split].
      * split; [reflexivity | eauto].
      * now intros e [= <-].
      * discriminate.
    + split; [| split].
      * split; [intros [e He]; discriminate He | discriminate].
      * discriminate.
      * intros dev [= <-]. split; [now left |]. right.
        split; [reflexivity |].
        intros d Hin Hp. specialize (Hnone d Hin). cbn beta in Hnone.
        rewrite Hp in Hnone. exact Hnone.
Qed.

(** ** Construction of the service *)

(** X3: what a constructed service holds, and why a construction fails
    before the model is loaded (the loading comes last and is not part
    of this): the key code is the one of the configured key, the device is the one
    device resolution returns, the method is a known tool and is the
    configured one whenever that is a known tool (no probing, no
    availability check); a failure is the first failure among key,
    device and method, in that order. *)
Theorem X3_init_outcome :
  forall (h : host) (settings : Settings),
    match init h settings with
    | Ok self =>
        self_settings self = settings
        /\ resolve_key_code h (key_name settings) = Ok (self_key_code self)
        /\ pick_keyboard_device h (self_key_code self) (keyboard_device settings)
           = Ok (self_device self)
        /\ pick_paste_method h (paste_method settings) = Ok (self_paste_method self)
        /\ Str.mem (self_paste_method self) known_methods = true
        /\ (Str.mem (paste_method settings) known_methods = true ->
            self_paste_method self = paste_method settings)
        /\ self_model self = model settings
    | Raise e =>
        resolve_key_code h (key_name settings) = Raise e
        \/ (exists key_code,
              resolve_key_code h (key_name settings) = Ok key_code
              /\ (pick_keyboard_device h key_code (keyboard_device settings) = Raise e
                  \/ ((exists dev, pick_keyboard_device h key_code
                                     (keyboard_device settings) = Ok dev)
                      /\ e = NoPasteToolAvailable
                      /\ Str.mem (paste_method settings) known_methods = false
                      /\ available h "ydotool" = false
                      /\ available h "wtype" = false
                      /\ available h "xdotool" = false)))
    end.
Proof.
  intros h settings. unfold init, result_bind.
  destruct (resolve_key_code h (key_name settings)) as [key_code | e];
    [| now left].
  destruct (pick_keyboard_device h key_code (keyboard_device settings))
    as [dev | e] eqn:Hdev; [| right; exists key_code; split; [reflexivity | now left]].
  pose proof (pick_paste_method_known h (paste_method settings)) as Hknown.
  destruct (pick_paste_method h (paste_method settings)) as [method | e] eqn:Hm.
  - do 5 (split; [first [reflexivity | exact Hdev | exact Hknown] |]).
    split; [| reflexivity].
    intros Hconf. unfold pick_paste_method in Hm. rewrite Hconf in Hm.
    now injection Hm as <-.
  - right. exists key_code. split; [reflexivity |]. right.
    split; [eauto |]. split; [exact Hknown |].
    unfold pick_paste_method in Hm.
    destruct (Str.mem (paste_method settings) known_methods); [discriminate |].
    split; [reflexivity |].
    destruct (available h "ydotool"), (available h "wtype"),
      (available h "xdotool"), (wayland h), (x11 h); cbn in Hm;
      try discriminate Hm; repeat split; reflexivity.
Qed.

(** ** The device of the key test *)

Lemma key_devices_spec (devices : list InputDevice) (item : string * string) :
  In item (key_devices devices) <->
  exists dev, In dev devices /\ item = (dev_path dev, dev_name dev)
              /\ is_pointer dev = false /\ has_ev_key dev = true.
Proof.
  induction devices as [| dev rest IH]; cbn [key_devices In].
  - split; [intros [] | intros (dev & [] & _)].
  - destruct (is_pointer dev) eqn:Hp; [| destruct (has_ev_key dev) eqn:Hk].
    + rewrite IH. split.
      * intros (d & Hin & Hrest). exists d. split; [now right | exact Hrest].
      * intros (d & [<- | Hin] & Heq & Hp' & Hk'); [congruence |].
        exists d. now repeat split.
    + cbn [In]. rewrite IH. split.
      * intros [<- | (d & Hin & Hrest)].
        -- exists dev. repeat split; [now left | assumption | assumption].
        -- exists d. split; [now right | exact Hrest].
      * intros (d & [<- | Hin] & Heq & Hp' & Hk').
        -- now left.
        -- right. exists d. now repeat split.
    + rewrite IH. split.
      * intros (d & Hin & Hrest). exists d. split; [now right | exact Hrest].
      * intros (d & [<- | Hin] & Heq & Hp' & Hk'); [congruence |].
        exists d. now repeat split.
Qed.

(** X4: when the key test detects its device itself (nothing chosen in
    the device box, no device configured), the path it returns belongs to
    an enumerated device that is no pointer and has key capabilities, and
    it fails exactly when no such device exists; unlike the resolver of
    the service it never falls back to a pointing device. *)
Theorem X4_key_test_device_is_a_keyboard :
  forall (h : host) (settings : Settings) (selection : string),
    selection = "" \/ selection = "auto" ->
    keyboard_device settings = "auto" ->
    (forall path, pick_key_device_path h settings selection = Ok path ->
       exists dev, In dev (list_devices h) /\ dev_path dev = path
                   /\ is_pointer dev = false /\ has_ev_key dev = true)
    /\ ((exists e, pick_key_device_path h settings selection = Raise e) <->
        forall dev, In dev (list_devices h) -> is_pointer dev = false ->
                    has_ev_key dev = false).
Proof.
  intros h settings selection Hsel Hconf.
  assert (Hpick : pick_key_device_path h settings selection =
            match list_key_devices h with
            | item :: _ => Ok (fst item)
            | [] => Raise (RuntimeError "No keyboard device found for key test")
            end).
  { unfold pick_key_device_path. rewrite Hconf.
    destruct Hsel as [-> | ->]; reflexivity. }
  rewrite Hpick. unfold list_key_devices.
  destruct (key_devices (list_devices h)) as [| item rest] eqn:Hk.
  - split; [discriminate |]. split.
    + intros _ dev Hin Hp.
      destruct (has_ev_key dev) eqn:Hev; [| reflexivity].
      assert (Hitem : In (dev_path dev, dev_name dev) (key_devices (list_devices h))).
      { apply key_devices_spec. exists dev. now repeat split. }
      rewrite Hk in Hitem. destruct Hitem.
    + eauto.
  - assert (Hitem : In item (key_devices (list_devices h)))
      by (rewrite Hk; now left).
    apply key_devices_spec in Hitem as (dev & Hin & -> & Hp & Hev).
    split.
    + intros path [= <-]. exists dev. now repeat split.
    + split; [intros [e He]; discriminate He |].
      intros Hnone. rewrite (Hnone dev Hin Hp) in Hev. discriminate Hev.
Qed.

Lemma X4_witness :
  exists dev,
    In dev [Demo.mouse; Demo.keyboard] /\ dev_path dev = "/dev/input/event3"
    /\ is_pointer dev = false /\ has_ev_key dev = true.
Proof.
  exact (proj1 (X4_key_test_device_is_a_keyboard
    (Demo.make Demo.wayland_env [] [Demo.mouse; Demo.keyboard]
       (Demo.always 0) (Ok []))
    Demo.settings "auto" (or_intror eq_refl) eq_refl)
    "/dev/input/event3" eq_refl).
Defined.

Lemma before_space_entry (path rest : string) :
  no_space path = true -> before_space (path +:+ String " "%char rest) = path.
Proof.
  induction path as [| c path IH]; intros Hpath; [reflexivity |].
  cbn [no_space] in Hpath. apply andb_prop in Hpath as [Hc Hrest].
  apply negb_true_iff in Hc.
  change (String c path +:+ String " "%char rest)
    with (String c (path +:+ String " "%char rest)).
  cbn [before_space]. now rewrite Hc, IH.
Qed.

(** X5: choosing an entry of the device box gives back the path of its
    device, provided the path has no space: the entry [path - name] is
    cut at its first space, whatever the device name and the
    configuration. *)
Theorem X5_device_choice_round_trip :
  forall (h : host) (settings : Settings) (path name : string),
    no_space path = true ->
    pick_key_device_path h settings (choice_of (path, name)) = Ok path.
Proof.
  intros h settings path name Hpath.
  unfold pick_key_device_path, choice_of. cbn [fst snd].
  pose proof (before_space_entry path ("- " +:+ name) Hpath) as Hcut.
  change (String " "%char ("- " +:+ name)) with (" - " +:+ name) in Hcut.
  assert (Hne : Str.nonempty (path +:+ " - " +:+ name) = true)
    by apply nonempty_app_cons.
  assert (Hauto : String.eqb (path +:+ " - " +:+ name) "auto" = false).
  { apply String.eqb_neq. intros Heq.
    pose proof (f_equal before_space Heq) as Hb. rewrite Hcut in Hb.
    cbn in Hb. subst path. discriminate Heq. }
  rewrite Hne, Hauto. cbn [andb negb]. now rewrite Hcut.
Qed.

Lemma X5_witness :
  pick_key_device_path
    (Demo.make Demo.wayland_env [] [Demo.keyboard] (Demo.always 0) (Ok []))
    Demo.settings
    (choice_of ("/dev/input/event3", "AT Translated Set 2 keyboard"))
  = Ok "/dev/input/event3".
Proof.
  exact (X5_device_choice_round_trip
    (Demo.make Demo.wayland_env [] [Demo.keyboard] (Demo.always 0) (Ok []))
    Demo.settings "/dev/input/event3" "AT Translated Set 2 keyboard" eq_refl).
Defined.

(** ** The cascades of the paste dispatcher *)






(** The socket of [ydotool], by precedence: the variable of the
    environment, else the system-wide socket when it exists, else the
    socket of the user when it exists, else none. *)
Lemma ydotool_env_spec (h : host) (w : world) :
  exists env,
    ydotool_env h w = (Ok env, w)
    /\ (forall k, k <> "YDOTOOL_SOCKET" -> env !! k = environ h !! k)
    /\ env !! "YDOTOOL_SOCKET" =
       match environ h !! "YDOTOOL_SOCKET" with
       | Some s => Some s
       | None =>
           if bool_decide ("/run/ydotoold.sock" ∈ files w)
           then Some "/run/ydotoold.sock"
           else
             let user_socket :=
               "/run/user/" +:+ Str.of_int (getuid h) +:+ "/.ydotool_socket" in
             if bool_decide (user_socket ∈ files w) then Some user_socket else None
       end.
Proof.
  unfold ydotool_env, bind, path_exists, ret.
  change ("/run/user" +:+ "/" +:+ Str.of_int (getuid h) +:+ "/" +:+ ".ydotool_socket")
    with ("/run/user/" +:+ Str.of_int (getuid h) +:+ "/.ydotool_socket").
  set (user_socket := "/run/user/" +:+ Str.of_int (getuid h) +:+ "/.ydotool_socket").
  destruct (environ h !! "YDOTOOL_SOCKET") as [s |] eqn:Hs.
  - rewrite (bool_decide_eq_false_2 (Some s = None)) by done. cbn [andb].
    rewrite Hs. rewrite (bool_decide_eq_false_2 (Some s = None)) by done.
    exists (environ h). split; [reflexivity |]. split; [reflexivity | exact Hs].
  - rewrite (bool_decide_eq_true_2 (None = None)) by reflexivity. cbn [andb].
    destruct (bool_decide ("/run/ydotoold.sock" ∈ files w)).
    + rewrite lookup_insert_eq.
      rewrite (bool_decide_eq_false_2 (Some "/run/ydotoold.sock" = None)) by done.
      eexists. split; [reflexivity |]. split.
      * intros k Hk. now rewrite lookup_insert_ne.
      * apply lookup_insert_eq.
    + rewrite Hs. rewrite (bool_decide_eq_true_2 (None = None)) by reflexivity.
      destruct (bool_decide (user_socket ∈ files w)).
      * eexists. split; [reflexivity |]. split.
        -- intros k Hk. now rewrite lookup_insert_ne.
        -- apply lookup_insert_eq.
      * exists (environ h). split; [reflexivity |]. split; [reflexivity | exact Hs].
Qed.

(** X7: every [ydotool] invocation of a paste is handed one and the same
    environment: the environment of the process, with the control socket
    added by precedence (the variable already set, else the system-wide
    socket if it exists, else the socket of the user if it exists, else
    no socket at all); the clipboard helper is run without it. *)
Theorem X7_ydotool_socket_resolution :
  forall (h : host) (text paste_hotkey clipboard_paste : string)
         (key_delay clip_delay : Z) (w : world),
    Str.nonempty text = true ->
    exists (env : gmap string string) (d : list effect),
      log (snd (paste_text h text "ydotool" paste_hotkey clipboard_paste
                  key_delay clip_delay w)) = log w ++ d
      /\ Forall (ydotool_step env) d
      /\ (forall k, k <> "YDOTOOL_SOCKET" -> env !! k = environ h !! k)
      /\ env !! "YDOTOOL_SOCKET" =
         match environ h !! "YDOTOOL_SOCKET" with
         | Some s => Some s
         | None =>
             if bool_decide ("/run/ydotoold.sock" ∈ files w)
             then Some "/run/ydotoold.sock"
             else
               let user_socket :=
                 "/run/user/" +:+ Str.of_int (getuid h) +:+ "/.ydotool_socket" in
               if bool_decide (user_socket ∈ files w) then Some user_socket else None
         end.
Proof.
  intros h text paste_hotkey clipboard_paste key_delay clip_delay w Hne.
  destruct (ydotool_env_spec h w) as (env & Henv & Hother & Hsock).
  exists env.
  assert (Hd : exists d,
    log (snd (paste_text h text "ydotool" paste_hotkey clipboard_paste
                key_delay clip_delay w)) = log w ++ d
    /\ Forall (ydotool_step env) d).
  { unfold paste_text. rewrite Hne. cbn [negb String.eqb Ascii.eqb Bool.eqb].
    unfold ydotool_clipboard, run_tool, bind, history, emit, ret, raise.
    rewrite Henv. cbn [fst snd log files app].
    repeat match goal with
           | |- context [if ?b then _ else _] =>
               destruct b; cbn [fst snd log files app negb]
           end;
      (eexists; split;
        [ rewrite <- ?app_assoc; cbn [app]; reflexivity
        | repeat (apply List.Forall_cons; [cbn; auto |]); apply List.Forall_nil ]). }
  destruct Hd as (d & Hlog & Hsteps).
  exists d. now repeat split.
Qed.

Lemma X7_witness :
  exists (env : gmap string string) (d : list effect),
    log (snd (paste_text
                (Demo.make Demo.wayland_env ["ydotool"] [] (Demo.always 0) (Ok []))
                "hello" "ydotool" "auto" "off" 1 75
                {| log := []; files := {[ "/run/ydotoold.sock" ]} |})) = [] ++ d
    /\ Forall (ydotool_step env) d
    /\ env !! "YDOTOOL_SOCKET" = Some "/run/ydotoold.sock".
Proof.
  destruct (X7_ydotool_socket_resolution
    (Demo.make Demo.wayland_env ["ydotool"] [] (Demo.always 0) (Ok []))
    "hello" "auto" "off" 1 75
    {| log := []; files := {[ "/run/ydotoold.sock" ]} |} eq_refl)
    as (env & d & Hlog & Hsteps & _ & Hsock).
  exists env, d. split; [exact Hlog |]. split; [exact Hsteps |]. exact Hsock.
Defined.



(** ** The text of a transcription *)













(** ** The shape of what the loop body does *)

Section KeepsFiles.

Context {A B : Type}.

Lemma keeps_ret (a : A) : keeps_files (ret a).
Proof. intros w. reflexivity. Qed.

Lemma keeps_raise (e : exn) : keeps_files (@raise A e).
Proof. intros w. reflexivity. Qed.

Lemma keeps_history : keeps_files history.
Proof. intros w. reflexivity. Qed.

Lemma keeps_path_exists (p : string) : keeps_files (path_exists p).
Proof. intros w. reflexivity. Qed.

Lemma keeps_emit (e : effect) : keeps_files (emit e).
Proof. intros w. reflexivity. Qed.

Lemma keeps_bind (c : M A) (k : A -> M B) :
  keeps_files c -> (forall a, keeps_files (k a)) -> keeps_files (bind c k).
Proof.
  intros Hc Hk w. unfold bind. specialize (Hc w).
  destruct (c w) as [[a | e] w1]; cbn [snd] in *; [| exact Hc].
  now rewrite (Hk a w1).
Qed.

Lemma keeps_try_except (body : M A) (handler : exn -> M A) :
  keeps_files body -> (forall e, keeps_files (handler e)) ->
  keeps_files (try_except body handler).
Proof.
  intros Hb Hh w. unfold try_except. specialize (Hb w).
  destruct (body w) as [[a | e] w1]; cbn [snd] in *; [exact Hb |].
  now rewrite (Hh e w1).
Qed.

End KeepsFiles.

Ltac keeps_step :=
  first
    [ apply keeps_ret
    | apply keeps_raise
    | apply keeps_history
    | apply keeps_path_exists
    | apply keeps_emit
    | apply keeps_bind; [| intros ?]
    | apply keeps_try_except; [| intros ?]
    | match goal with
      | |- keeps_files (if ?b then _ else _) => destruct b
      | |- keeps_files (match ?x with _ => _ end) => destruct x
      end ].

Lemma transcribe_and_paste_keeps_files (h : host) (self : DictationService)
    (wav : option string) :
  keeps_files (try_except (transcribe_and_paste h self wav) report_failure).
Proof.
  unfold transcribe_and_paste, transcribe, paste_text, wtype_clipboard,
    ydotool_env, ydotool_clipboard, run_tool, report_failure, _text, _error.
  repeat keeps_step.
Qed.

Lemma transcribe_and_paste_silent (h : host) (self : DictationService)
    (wav : option string) :
  appends silent (try_except (transcribe_and_paste h self wav) report_failure).
Proof.
  unfold transcribe_and_paste, transcribe, paste_text, wtype_clipboard,
    ydotool_env, ydotool_clipboard, run_tool, report_failure, _text, _error.
  repeat appends_step; exact I.
Qed.

Lemma remove_wav_files (wav : option string) (w : world) :
  exists d, remove_wav wav w
            = (Ok tt, {| log := log w ++ d; files := files w ∖ wav_set wav |})
            /\ Forall silent d.
Proof.
  assert (Hsame : forall X : gset string, X = files w ->
            (Ok tt, w) = (Ok tt, {| log := log w ++ []; files := X |}) :> result unit * world).
  { intros X ->. rewrite app_nil_r. now destruct w. }
  unfold remove_wav, wav_set, bind, path_exists, unlink, ret.
  destruct wav as [p |].
  - destruct (Str.nonempty p).
    + destruct (bool_decide (p ∈ files w)) eqn:Hb.
      * exists [Unlink p]. split; [reflexivity | repeat constructor].
      * exists []. split; [| constructor]. apply Hsame.
        apply bool_decide_eq_false in Hb.
        apply difference_disjoint_L. now apply disjoint_singleton_r.
    + exists []. split; [| constructor]. apply Hsame, difference_empty_L.
  - exists []. split; [| constructor]. apply Hsame, difference_empty_L.
Qed.

Lemma utterance_scope_shape (h : host) (self : DictationService)
    (wav : option string) (w : world) :
  exists d, utterance_scope h self wav w
            = (Ok tt, {| log := log w ++ d; files := files w ∖ wav_set wav |})
            /\ Forall silent d.
Proof.
  unfold utterance_scope, try_finally.
  destruct (transcribe_and_paste_silent h self wav w) as (d1 & Hlog & Hd1).
  pose proof (transcribe_and_paste_keeps_files h self wav w) as Hfiles.
  pose proof (utterance_scope_ok h self wav w) as Hok.
  unfold utterance_scope, try_finally in Hok.
  destruct (try_except _ _ w) as [r w1]; cbn [snd] in *.
  destruct (remove_wav_files wav w1) as (d2 & Hrm & Hd2).
  rewrite Hrm in *. cbn [fst] in Hok. subst r.
  exists (d1 ++ d2). split; [| now apply Forall_app].
  now rewrite Hlog, Hfiles, app_assoc.
Qed.

Lemma stop_recording_silent (h : host) (p : Popen) (w : world) :
  exists d, stop_recording h p w
            = (Ok tt, {| log := (log w ++ [Poll p]) ++ d; files := files w |})
            /\ Forall silent d.
Proof.
  unfold stop_recording, bind, history, emit, ret. cbn.
  destruct (has_exited h (log w) p).
  - exists []. split; [now rewrite app_nil_r | constructor].
  - cbn. destruct (wait_expired h _ p); cbn.
    + exists [SendSigint p; Wait p 2; Terminate p]. split.
      * now rewrite <- !app_assoc.
      * repeat constructor.
    + exists [SendSigint p; Wait p 2]. split.
      * now rewrite <- !app_assoc.
      * repeat constructor.
Qed.

(** A release of the key while recording: the session is stopped, the
    status goes to ["transcribing"] and back to ["ready"], the file of
    the session is removed; nothing else opens or closes a session,
    changes the status or creates a file. *)
Lemma handle_event_up_shape (h : host) (self : DictationService)
    (st : loop_vars) (event : InputEvent) (w : world) (p : Popen) :
  ev_type event = EV_KEY ->
  ev_code event = self_key_code self ->
  ev_value event = 0 ->
  recording st = true ->
  proc st = Some p ->
  exists d1 d2,
    handle_event h self st event w
    = (Ok {| recording := false; proc := proc st; wav_path := wav_path st |},
       {| log := ((((log w ++ [Poll p]) ++ d1) ++ [Status "transcribing"]) ++ d2)
                 ++ [Status "ready"];
          files := files w ∖ wav_set (wav_path st) |})
    /\ Forall silent d1 /\ Forall silent d2.
Proof.
  intros Ht Hc Hv Hr Hp.
  rewrite (handle_event_key_up h self st event w p) by assumption.
  destruct (stop_recording_silent h p w) as (d & Hstop & Hd).
  unfold bind. rewrite Hstop. unfold _status, emit. cbn [snd log files].
  match goal with |- context [utterance_scope h self (wav_path st) ?entry] =>
    destruct (utterance_scope_shape h self (wav_path st) entry) as (d2 & Hscope & Hd2)
  end.
  rewrite Hscope. cbn [log files].
  exists (d ++ [Sleep 100]), d2. split.
  - unfold _status, emit, ret. cbn [log files]. do 2 f_equal.
    now rewrite <- !app_assoc.
  - split; [| exact Hd2]. apply Forall_app. split; [exact Hd | repeat constructor].
Qed.

(** A press of the key while idle: a temporary file is created and the
    recorder is spawned; when the spawn fails its exception leaves the
    loop body and the file stays. *)
Lemma handle_event_down_shape (h : host) (self : DictationService)
    (st : loop_vars) (event : InputEvent) (w : world) :
  ev_type event = EV_KEY ->
  ev_code event = self_key_code self ->
  ev_value event = 1 ->
  recording st = false ->
  let name := gettempdir h +:+ "/" +:+ "whisper-fn-" +:+ temp_infix h (log w)
              +:+ ".wav" in
  let w1 := {| log := log w ++ [MkTemp name]; files := {[name]} ∪ files w |} in
  let pid := List.length (log w1) in
  Str.nonempty name = true
  /\ handle_event h self st event w =
     match popen_error h (log w1) (arecord_cmd name) with
     | Some e => (Raise e, w1)
     | None =>
         (Ok {| recording := true; proc := Some pid; wav_path := Some name |},
          {| log := (log w1 ++ [Spawn pid (arecord_cmd name)]) ++ [Status "recording"];
             files := files w1 |})
     end.
Proof.
  intros Ht Hc Hv Hr name w1 pid.
  split; [apply nonempty_app_cons |].
  rewrite handle_event_key_down by assumption.
  unfold start_recording, named_temporary_file, popen, bind, history, emit,
    ret, raise, _status, emit.
  cbn [log files fst snd]. fold name. fold w1. subst pid.
  change (log w1) with (log w ++ [MkTemp name]).
  destruct (popen_error h (log w ++ [MkTemp name]) (arecord_cmd name));
    reflexivity.
Qed.

(** ** The status cycle and the temporary files of a run *)

Lemma silent_quiet (e : effect) : silent e -> quiet e.
Proof. destruct e; cbn; auto. Qed.

Lemma silent_not_status (e : effect) : silent e -> not_status e.
Proof. destruct e; cbn; auto. Qed.

Lemma temp_names_app (l d : list effect) :
  temp_names (l ++ d) = temp_names l ++ temp_names d.
Proof. unfold temp_names. apply flat_map_app. Qed.

Lemma temp_names_silent (d : list effect) :
  Forall silent d -> temp_names d = [].
Proof.
  induction 1 as [| e d He _ IH]; [reflexivity |].
  cbn [temp_names flat_map]. fold (temp_names d). rewrite IH.
  destruct e; cbn in *; try reflexivity; destruct He.
Qed.

Lemma status_cycle_nil : status_cycle [].
Proof.
  intros pre message [k Hk]. symmetry in Hk.
  apply app_eq_nil in Hk as [Hk _]. now apply app_eq_nil in Hk as [_ Hk].
Qed.

Lemma status_cycle_snoc (l : list effect) (e : effect) :
  status_cycle l ->
  (forall message, e = Status message ->
     message = match last_status l with
               | None => "ready"
               | Some s => next_status s
               end) ->
  status_cycle (l ++ [e]).
Proof.
  intros Hl He pre message [Hpre | Heq]%prefix_snoc_inv.
  - now apply Hl.
  - apply app_inj_tail in Heq as [-> <-]. now apply He.
Qed.

Lemma status_cycle_app (l d : list effect) :
  status_cycle l -> Forall not_status d ->
  status_cycle (l ++ d) /\ last_status (l ++ d) = last_status l.
Proof.
  intros Hl Hd. revert l Hl.
  induction Hd as [| e d He _ IH]; intros l Hl.
  - now rewrite app_nil_r.
  - replace (l ++ e :: d) with ((l ++ [e]) ++ d) by now rewrite <- app_assoc.
    assert (Hle : status_cycle (l ++ [e])).
    { apply status_cycle_snoc; [exact Hl |]. intros m ->. destruct He. }
    destruct (IH _ Hle) as [Hc Hs]. split; [exact Hc |].
    rewrite Hs, last_status_step. destruct e; try reflexivity. destruct He.
Qed.

Lemma status_cycle_status (l : list effect) (s : string) :
  status_cycle l -> last_status l = Some s ->
  status_cycle (l ++ [Status (next_status s)])
  /\ last_status (l ++ [Status (next_status s)]) = Some (next_status s).
Proof.
  intros Hl Hs. split; [| apply last_status_snoc].
  apply status_cycle_snoc; [exact Hl |]. intros m [= <-]. now rewrite Hs.
Qed.

Lemma handle_event_sound (h : host) (self : DictationService)
    (st : loop_vars) (event : InputEvent) (w : world) :
  sound st w ->
  match handle_event h self st event w with
  | (Ok st', w') => sound st' w'
  | (Raise _, w') => sound_raise w'
  end.
Proof.
  intros Hsound. pose proof Hsound as (Hd & Ha & Hc & Hnames & Hdisk).
  pose proof (handle_event_discipline h self st event w Hd Ha) as Hdisc.
  destruct (acts self st event) eqn:Hacts.
  2: { rewrite handle_event_ignored by exact Hacts. exact Hsound. }
  clear Hsound.
  unfold acts in Hacts.
  apply andb_prop in Hacts as [Hkey Hval].
  apply andb_prop in Hkey as [Ht%Z.eqb_eq Hcode%Z.eqb_eq].
  apply orb_prop in Hval as [Hdown | Hup].
  - (* a press while idle *)
    apply andb_prop in Hdown as [Hv%Z.eqb_eq Hr%negb_true_iff].
    destruct (handle_event_down_shape h self st event w Ht Hcode Hv Hr)
      as [Hname Hshape].
    cbv zeta in Hname, Hshape.
    set (name := gettempdir h +:+ "/" +:+ "whisper-fn-" +:+ temp_infix h (log w)
                 +:+ ".wav") in *.
    rewrite Hshape in *. clear Hshape. cbn [log files] in *.
    unfold agrees in Ha. rewrite Hr in Ha. destruct Ha as [_ Hs].
    destruct (status_cycle_app (log w) [MkTemp name] Hc) as [Hc1 Hs1];
      [repeat constructor |].
    destruct (popen_error h _ _).
    + split; [exact Hdisc | exact Hc1].
    + destruct Hdisc as [Hd' Ha'].
      destruct (status_cycle_app _ [Spawn (List.length (log w ++ [MkTemp name]))
                                      (arecord_cmd name)] Hc1) as [Hc2 Hs2];
        [repeat constructor |].
      rewrite Hs1, Hs in Hs2.
      destruct (status_cycle_status _ "ready" Hc2 Hs2) as [Hc3 _].
      split; [exact Hd' |]. split; [exact Ha' |]. split; [exact Hc3 |].
      unfold temps_ok. cbn [log files recording wav_path].
      rewrite !temp_names_app. cbn [temp_names flat_map app].
      rewrite !app_nil_r. split.
      * apply Forall_app. split; [exact Hnames | now repeat constructor].
      * intros n Hin Hfile. split; [reflexivity |]. f_equal.
        apply elem_of_union in Hfile as [Hnew%elem_of_singleton | Hold];
          [now symmetry |].
        apply in_app_or in Hin as [Hin | [<- | []]]; [| reflexivity].
        destruct (Hdisk n Hin Hold) as [Hrec _]. congruence.
  - (* a release while recording *)
    apply andb_prop in Hup as [Hv%Z.eqb_eq Hr].
    unfold agrees in Ha. rewrite Hr in Ha. destruct Ha as (p & Hp & _ & Hs).
    destruct (handle_event_up_shape h self st event w p Ht Hcode Hv Hr Hp)
      as (d1 & d2 & Hshape & Hd1 & Hd2).
    rewrite Hshape in *. clear Hshape. destruct Hdisc as [Hd' Ha'].
    cbn [log files] in *.
    destruct (status_cycle_app (log w) [Poll p] Hc) as [Hc1 Hs1];
      [repeat constructor |].
    destruct (status_cycle_app _ d1 Hc1) as [Hc2 Hs2];
      [eapply Forall_impl; [exact Hd1 | apply silent_not_status] |].
    rewrite Hs1, Hs in Hs2.
    destruct (status_cycle_status _ "recording" Hc2 Hs2) as [Hc3 Hs3].
    change (next_status "recording") with "transcribing" in Hc3, Hs3.
    destruct (status_cycle_app _ d2 Hc3) as [Hc4 Hs4];
      [eapply Forall_impl; [exact Hd2 | apply silent_not_status] |].
    rewrite Hs3 in Hs4.
    destruct (status_cycle_status _ "transcribing" Hc4 Hs4) as [Hc5 _].
    split; [exact Hd' |]. split; [exact Ha' |]. split; [exact Hc5 |].
    unfold temps_ok. cbn [log files recording wav_path].
    rewrite !temp_names_app, (temp_names_silent d1 Hd1), (temp_names_silent d2 Hd2).
    cbn [temp_names flat_map app]. rewrite !app_nil_r. split; [exact Hnames |].
    intros n Hin [Hfile Hkept]%elem_of_difference. exfalso. apply Hkept.
    destruct (Hdisk n Hin Hfile) as [_ Hwav]. rewrite Hwav. cbn [wav_set].
    rewrite (proj1 (List.Forall_forall _ _) Hnames n Hin).
    now apply elem_of_singleton.
Qed.

Lemma for_each_sound (h : host) (self : DictationService)
    (events : list InputEvent) (st : loop_vars) (w : world) :
  sound st w ->
  match for_each (handle_event h self) events st w with
  | (Ok st', w') => sound st' w'
  | (Raise _, w') => sound_raise w'
  end.
Proof.
  revert st w. induction events as [| event events IH]; intros st w Hs.
  - exact Hs.
  - cbn [for_each]. unfold bind.
    pose proof (handle_event_sound h self st event w Hs) as Hstep.
    destruct (handle_event h self st event w) as [[st' | e] w']; [| exact Hstep].
    now apply IH.
Qed.

Lemma sound_error (st : loop_vars) (w : world) (message : string) :
  sound st w ->
  sound st {| log := log w ++ [Error message]; files := files w |}.
Proof.
  intros (Hd & Ha & Hc & Hnames & Hdisk). cbn [log files].
  destruct (agrees_quiet st (log w) [Error message] Hd Ha) as [Hd' Ha'];
    [repeat constructor |].
  destruct (status_cycle_app (log w) [Error message] Hc) as [Hc' _];
    [repeat constructor |].
  split; [exact Hd' |]. split; [exact Ha' |]. split; [exact Hc' |].
  unfold temps_ok. cbn [log files]. rewrite temp_names_app. cbn [temp_names flat_map].
  now rewrite app_nil_r.
Qed.

Lemma run_loop_sound (h : host) (self : DictationService)
    (script : list poll) (st : loop_vars) (w : world) :
  sound st w ->
  match run_loop h self script st w with
  | (Ok st', w') => sound st' w'
  | (Raise _, w') => sound_raise w'
  end.
Proof.
  revert st w. induction script as [| turn script IH]; intros st w Hs.
  - exact Hs.
  - destruct turn as [exc | | exc | events]; cbn [run_loop].
    + unfold bind, _error, emit, ret. now apply sound_error.
    + now apply IH.
    + unfold bind, _error, emit, ret. now apply sound_error.
    + unfold bind.
      pose proof (for_each_sound h self events st w Hs) as Hstep.
      destruct (for_each (handle_event h self) events st w) as [[st' | e] w'];
        [| exact Hstep].
      now apply IH.
Qed.

Lemma sound_start (fs : gset string) :
  sound initial_vars {| log := [Status "ready"]; files := fs |}.
Proof.
  split; [apply (disciplined_status [] "ready" disciplined_nil) |].
  split; [split; reflexivity |].
  split.
  - apply (status_cycle_snoc [] (Status "ready") status_cycle_nil).
    now intros m [= <-].
  - split; [constructor | intros n []].
Qed.

Lemma shutdown_sound (h : host) (st : loop_vars) (w : world) :
  sound st w ->
  exists w', shutdown h st w = (Ok tt, w')
             /\ status_cycle (log w')
             /\ open_sessions (log w') = []
             /\ forall n, In n (temp_names (log w')) -> n ∉ files w'.
Proof.
  intros (Hd & Ha & Hc & Hnames & Hdisk). unfold shutdown, agrees in *.
  destruct (recording st) eqn:Hr.
  - destruct Ha as (p & Hp & Ho & Hs). rewrite Hp. unfold bind.
    destruct (stop_recording_silent h p w) as (d & Hstop & Hq). rewrite Hstop.
    match goal with |- context [remove_wav (wav_path st) ?w1] =>
      destruct (remove_wav_files (wav_path st) w1) as (d2 & Hrm & Hq2)
    end.
    rewrite Hrm. cbn [log files]. eexists. split; [reflexivity |]. cbn [log files].
    destruct (disciplined_poll (log w) p Hd) as [Hd1 Ho1].
    rewrite Ho in Ho1. cbn in Ho1. rewrite Nat.eqb_refl in Ho1. cbn in Ho1.
    destruct (disciplined_quiet _ d Hd1) as (Hd2 & Ho2 & _);
      [eapply Forall_impl; [exact Hq | apply silent_quiet] |].
    destruct (disciplined_quiet _ d2 Hd2) as (_ & Ho3 & _);
      [eapply Forall_impl; [exact Hq2 | apply silent_quiet] |].
    destruct (status_cycle_app (log w) [Poll p] Hc) as [Hc1 _];
      [repeat constructor |].
    destruct (status_cycle_app _ d Hc1) as [Hc2 _];
      [eapply Forall_impl; [exact Hq | apply silent_not_status] |].
    destruct (status_cycle_app _ d2 Hc2) as [Hc3 _];
      [eapply Forall_impl; [exact Hq2 | apply silent_not_status] |].
    split; [exact Hc3 |]. split; [now rewrite Ho3, Ho2 |].
    rewrite !temp_names_app, (temp_names_silent d Hq), (temp_names_silent d2 Hq2).
    cbn [temp_names flat_map app]. rewrite !app_nil_r.
    intros n Hin [Hfile Hkept]%elem_of_difference. apply Hkept.
    destruct (Hdisk n Hin Hfile) as [_ Hwav]. rewrite Hwav. cbn [wav_set].
    rewrite (proj1 (List.Forall_forall _ _) Hnames n Hin).
    now apply elem_of_singleton.
  - destruct Ha as [Ho Hs].
    exists w. split; [now destruct (proc st) |].
    split; [exact Hc |]. split; [exact Ho |].
    intros n Hin Hfile. destruct (Hdisk n Hin Hfile) as [Hrec _]. discriminate Hrec.
Qed.

Lemma run_unfold (h : host) (self : DictationService) (script : list poll)
    (fs : gset string) :
  run h self script {| log := []; files := fs |} =
  match run_loop h self script initial_vars
          {| log := [Status "ready"]; files := fs |} with
  | (Ok st, w1) => shutdown h st w1
  | (Raise e, w1) => (Raise e, w1)
  end.
Proof. reflexivity. Qed.

(** X11: in every run the statuses reported to the observer follow the
    cycle of the service: the first is ["ready"], ["recording"] follows
    ["ready"], ["transcribing"] follows ["recording"], and ["ready"]
    follows ["transcribing"]; this holds at every point of the log, also
    when the loop is left by a device error or by an exception. *)
Theorem X11_statuses_follow_the_cycle :
  forall (h : host) (self : DictationService) (script : list poll)
         (fs : gset string),
    status_cycle (log (snd (run h self script {| log := []; files := fs |}))).
Proof.
  intros h self script fs. rewrite run_unfold.
  pose proof (run_loop_sound h self script initial_vars _ (sound_start fs)) as Hloop.
  destruct (run_loop h self script initial_vars _) as [[st | e] w1].
  - destruct (shutdown_sound h st w1 Hloop) as (w' & Hshut & Hc & _).
    now rewrite Hshut.
  - now destruct Hloop.
Qed.

(** X12: a run that ends without an exception leaves nothing behind: no
    recording session is open any more, and none of the temporary files
    it created is on disk, whether the loop ended by cancellation or by
    a device error, idle or in the middle of a recording. *)
Theorem X12_clean_exit_leaves_nothing :
  forall (h : host) (self : DictationService) (script : list poll)
         (fs : gset string),
    let r := run h self script {| log := []; files := fs |} in
    fst r = Ok tt ->
    open_sessions (log (snd r)) = []
    /\ forall name, In name (temp_names (log (snd r))) -> name ∉ files (snd r).
Proof.
  intros h self script fs r. subst r. rewrite run_unfold.
  pose proof (run_loop_sound h self script initial_vars _ (sound_start fs)) as Hloop.
  destruct (run_loop h self script initial_vars _) as [[st | e] w1];
    [| discriminate].
  destruct (shutdown_sound h st w1 Hloop) as (w' & Hshut & _ & Ho & Hfiles).
  rewrite Hshut. cbn [fst snd]. intros _. split; [exact Ho | exact Hfiles].
Qed.

Lemma X12_witness :
  let r := run
    (Demo.make Demo.wayland_env ["wtype"] [Demo.fn_keyboard] (Demo.always 1)
       (Ok ["hello"]))
    (Demo.service "wtype")
    [Readable [Demo.key 1; Demo.key 0]; NotReadable; Readable [Demo.key 1];
     ReadError "No such device"]
    {| log := []; files := ∅ |} in
  open_sessions (log (snd r)) = []
  /\ forall name, In name (temp_names (log (snd r))) -> name ∉ files (snd r).
Proof.
  exact (X12_clean_exit_leaves_nothing
    (Demo.make Demo.wayland_env ["wtype"] [Demo.fn_keyboard] (Demo.always 1)
       (Ok ["hello"]))
    (Demo.service "wtype")
    [Readable [Demo.key 1; Demo.key 0]; NotReadable; Readable [Demo.key 1];
     ReadError "No such device"]
    ∅ eq_refl).
Defined.

(** ** What the loop depends on *)

Lemma irrelevant_ignored (self : DictationService) (st : loop_vars)
    (event : InputEvent) :
  relevant self event = false -> acts self st event = false.
Proof.
  unfold relevant, acts.
  destruct (ev_type event =? EV_KEY); [| reflexivity].
  destruct (ev_code event =? self_key_code self); [| reflexivity].
  cbn [andb].
  destruct (ev_value event =? 1), (ev_value event =? 0);
    try discriminate; intros _; now rewrite !andb_false_l.
Qed.

Lemma for_each_relevant (h : host) (self : DictationService)
    (events : list InputEvent) (st : loop_vars) (w : world) :
  for_each (handle_event h self) (List.filter (relevant self) events) st w
  = for_each (handle_event h self) events st w.
Proof.
  revert st w. induction events as [| event events IH]; intros st w;
    [reflexivity |].
  cbn [List.filter]. destruct (relevant self event) eqn:Hrel.
  - cbn [for_each]. unfold bind.
    destruct (handle_event h self st event w) as [[st' | e] w']; [apply IH | reflexivity].
  - cbn [for_each]. unfold bind.
    rewrite (handle_event_ignored h self st event w)
      by now apply irrelevant_ignored.
    apply IH.
Qed.

Lemma for_each_app {A S} (body : S -> A -> M S) (xs ys : list A) (st : S)
    (w : world) :
  for_each body (xs ++ ys) st w
  = (st' <- for_each body xs st ;; for_each body ys st') w.
Proof.
  revert st w. induction xs as [| x xs IH]; intros st w; [reflexivity |].
  cbn [app for_each]. unfold bind.
  destruct (body st x w) as [[st' | e] w']; [| reflexivity].
  rewrite IH. reflexivity.
Qed.

(** X13: a run depends only on the presses and releases of the
    configured key, in their order: turns without events, events of other
    types, of other keys or with other values can be dropped from the
    script, and the events of two successive reads can be delivered in
    one read, without any change to the outcome, the log or the disk. *)
Theorem X13_run_depends_on_key_transitions_only :
  forall (h : host) (self : DictationService),
    (forall (script : list poll) (w : world),
        run h self (prune self script) w = run h self script w)
    /\ (forall (first second : list InputEvent) (rest : list poll) (w : world),
          run h self (Readable first :: Readable second :: rest) w
          = run h self (Readable (first ++ second) :: rest) w).
Proof.
  intros h self.
  assert (Hloop : forall script st w,
            run_loop h self (prune self script) st w = run_loop h self script st w).
  { induction script as [| turn script IH]; intros st w; [reflexivity |].
    destruct turn as [exc | | exc | events]; cbn [prune run_loop];
      try reflexivity; [apply IH |].
    unfold bind. rewrite for_each_relevant.
    destruct (for_each (handle_event h self) events st w) as [[st' | e] w'];
      [apply IH | reflexivity]. }
  split.
  - intros script w. unfold run, bind.
    destruct (_status "ready" w) as [[[] | e] w0]; [| reflexivity].
    now rewrite Hloop.
  - intros first second rest w. unfold run, bind.
    destruct (_status "ready" w) as [[[] | e] w0]; [| reflexivity].
    cbn [run_loop]. unfold bind. rewrite for_each_app. unfold bind.
    destruct (for_each (handle_event h self) first initial_vars w0)
      as [[st1 | e] w1]; reflexivity.
Qed.




(** ** The trace of one utterance *)



